(** * Chinese Support Redux: tone-rule extraction and injection ([chinese/edit.py])

    A shallow embedding of the tone-styling core of [chinese/edit.py]:
    the compiled pattern [TONE_CSS_RULE], the two injectors
    [append_tone_styling_anki2_1_54] and [append_tone_styling_anki2_1_49],
    and the module-level version dispatch that binds [append_tone_styling].

    Python [str] values are modelled as [string]; a character is a code
    point below 256 (Latin-1).  On that range the regular expression
    class [\d] is exactly [0-9], and the white space of [str.strip] is
    exactly the set given by [is_space] below.

    The two effects of the code, [showWarning(..)] and
    [editor.web.eval(..)], are recorded in order in an event log that is
    threaded through a small state-and-exception monad.

    The editor hooks of the same file, [webviewDidInit] and the methods
    of [EditManager], are embedded in the module [Manager] over a world
    that holds [config['enabledModels']], [self.editors] and the events
    sent to the host; their properties are in the module [Hooks], the
    further properties of the tone-rule pipeline in [Pipeline]. *)

From Stdlib Require Import List Ascii String ZArith Lia Bool Arith.
From Stdlib Require Import DecimalString DecimalZ NArith.
Import ListNotations.
Local Open Scope list_scope.
Local Open Scope string_scope.

(** ** Python string primitives *)

Module PyStr.

Definition LF : string := String (ascii_of_nat 10) "".
Definition DQ : string := String (ascii_of_nat 34) "".

(** [s[n:]] *)
Fixpoint slice_from (n : nat) (s : string) : string :=
  match n, s with
  | O, _ => s
  | S n', String _ r => slice_from n' r
  | S _, EmptyString => EmptyString
  end.

(** [s.startswith(p)] *)
Fixpoint startswith (p s : string) : bool :=
  match p, s with
  | EmptyString, _ => true
  | String _ _, EmptyString => false
  | String a p', String b s' => Ascii.eqb a b && startswith p' s'
  end.

(** [p in s] *)
Fixpoint contains (p s : string) : bool :=
  startswith p s ||
  match s with
  | EmptyString => false
  | String _ s' => contains p s'
  end.

(** [s.split(sep)] for a one-character separator: never empty. *)
Fixpoint split (sep : ascii) (s : string) : list string :=
  match s with
  | EmptyString => [EmptyString]
  | String c s' =>
      if Ascii.eqb c sep then EmptyString :: split sep s'
      else match split sep s' with
           | h :: t => String c h :: t
           | [] => [String c EmptyString]
           end
  end.

(** [s.split(sep, 1)]: cut at the first separator only. *)
Fixpoint split1 (sep : ascii) (s : string) : list string :=
  match s with
  | EmptyString => [EmptyString]
  | String c s' =>
      if Ascii.eqb c sep then [EmptyString; s']
      else match split1 sep s' with
           | h :: t => String c h :: t
           | [] => [String c EmptyString]
           end
  end.

(** White space of [str.strip()] among the code points below 256:
    U+0009..U+000D, U+001C..U+0020, U+0085 and U+00A0. *)
Definition is_space (c : ascii) : bool :=
  let n := nat_of_ascii c in
  (((9 <=? n) && (n <=? 13)) || ((28 <=? n) && (n <=? 32))
   || (n =? 133) || (n =? 160))%nat.

Fixpoint lstrip (s : string) : string :=
  match s with
  | EmptyString => EmptyString
  | String c s' => if is_space c then lstrip s' else s
  end.

Fixpoint rstrip (s : string) : string :=
  match s with
  | EmptyString => EmptyString
  | String c s' =>
      match rstrip s' with
      | EmptyString => if is_space c then EmptyString else String c EmptyString
      | r => String c r
      end
  end.

(** [s.strip()] *)
Definition strip (s : string) : string := rstrip (lstrip s).

(** [sep.join(l)] *)
Fixpoint join (sep : string) (l : list string) : string :=
  match l with
  | [] => EmptyString
  | [x] => x
  | x :: rest => x ++ sep ++ join sep rest
  end.

(** Decimal digits: the class [\d] on code points below 256. *)
Definition is_digit (c : ascii) : bool :=
  let n := nat_of_ascii c in ((48 <=? n) && (n <=? 57))%nat.

Definition digit_val (c : ascii) : Z := Z.of_nat (nat_of_ascii c) - 48.

(** White space skipped by [int(..)]: the C locale's, plus the two
    Latin-1 separators that [int] maps to a blank first. *)
Definition is_int_space (c : ascii) : bool :=
  let n := nat_of_ascii c in
  (((9 <=? n) && (n <=? 13)) || (n =? 32) || (n =? 133) || (n =? 160))%nat.

Fixpoint int_lstrip (s : string) : string :=
  match s with
  | EmptyString => EmptyString
  | String c s' => if is_int_space c then int_lstrip s' else s
  end.

Fixpoint int_rstrip (s : string) : string :=
  match s with
  | EmptyString => EmptyString
  | String c s' =>
      match int_rstrip s' with
      | EmptyString => if is_int_space c then EmptyString else String c EmptyString
      | r => String c r
      end
  end.

(** Digits of a base-10 literal, single underscores allowed between
    digits; [prev] tells whether the previous character was a digit. *)
Fixpoint int_digits (acc : Z) (prev : bool) (s : string) : option Z :=
  match s with
  | EmptyString => if prev then Some acc else None
  | String c r =>
      if is_digit c then int_digits (10 * acc + digit_val c) true r
      else if Ascii.eqb c "_" then
             if prev then int_digits acc false r else None
           else None
  end.

(** [int(s)]: [None] stands for [ValueError].  The limit that newer
    interpreters put on the number of digits of a literal (4300 unless
    configured otherwise) is not part of this function: see
    [str_digits_check_threshold] below. *)
Definition int (s : string) : option Z :=
  match int_rstrip (int_lstrip s) with
  | String "-" r => option_map Z.opp (int_digits 0 false r)
  | String "+" r => int_digits 0 false r
  | t => int_digits 0 false t
  end.

(** [sys.int_info.str_digits_check_threshold]: the interpreter applies
    its digit limit to no literal of at most this many digits, whatever
    the limit is set to, so that on a text of at most this many
    characters [int] above is [int(s)] of every interpreter. *)
Definition str_digits_check_threshold : nat := 640.

(** Comparison of two lists of integers, as CPython's
    [list_richcompare]: the first index where the items differ decides;
    when there is none the lengths decide. *)
Fixpoint list_lt (v w : list Z) : bool :=
  match v, w with
  | [], [] => false
  | [], _ :: _ => true
  | _ :: _, [] => false
  | x :: v', y :: w' => if (x =? y)%Z then list_lt v' w' else (x <? y)%Z
  end.

Fixpoint list_ge (v w : list Z) : bool :=
  match v, w with
  | [], [] => true
  | [], _ :: _ => false
  | _ :: _, [] => true
  | x :: v', y :: w' => if (x =? y)%Z then list_ge v' w' else (x >=? y)%Z
  end.

(** Lower-case hexadecimal digit of a number below 16. *)
Definition hex_digit (n : nat) : ascii :=
  if (n <? 10)%nat then ascii_of_nat (48 + n) else ascii_of_nat (87 + n).

(** One character of [json.dumps(..)] output with [ensure_ascii]:
    the short escapes, [\u00xx] for every other character outside
    the printable range from the blank to the tilde. *)
Definition json_escape_char (c : ascii) : string :=
  let n := nat_of_ascii c in
  if (n =? 92)%nat then "\\"
  else if (n =? 34)%nat then "\" ++ DQ
  else if (n =? 8)%nat then "\b"
  else if (n =? 12)%nat then "\f"
  else if (n =? 10)%nat then "\n"
  else if (n =? 13)%nat then "\r"
  else if (n =? 9)%nat then "\t"
  else if ((32 <=? n) && (n <=? 126))%nat then String c EmptyString
  else "\u00" ++ String (hex_digit (n / 16)) (String (hex_digit (n mod 16)) EmptyString).

Fixpoint json_escape (s : string) : string :=
  match s with
  | EmptyString => EmptyString
  | String c s' => json_escape_char c ++ json_escape s'
  end.

Definition json_string (s : string) : string := DQ ++ json_escape s ++ DQ.

(** [json.dumps(l)] for a list of strings. *)
Definition json_dumps (l : list string) : string :=
  "[" ++ join ", " (map json_string l) ++ "]".

End PyStr.

(** ** The effect monad: an ordered event log and exceptions *)

Module Eff.

(** What the code does to the outside: a modal warning, or a script
    sent to the editor's web view. *)
Inductive event : Type :=
| ShowWarning (msg : string)
| WebEval (js : string).

Inductive exn : Type := ValueError.

Inductive result (A : Type) : Type :=
| Ok (a : A)
| Raise (e : exn).
Arguments Ok {A} a.
Arguments Raise {A} e.

(** A computation reads the log so far and returns its outcome with
    the extended log. *)
Definition M (A : Type) : Type := list event -> result A * list event.

Definition ret {A} (a : A) : M A := fun log => (Ok a, log).

Definition bind {A B} (m : M A) (k : A -> M B) : M B :=
  fun log =>
    match m log with
    | (Ok a, log') => k a log'
    | (Raise e, log') => (Raise e, log')
    end.

Definition raise {A} (e : exn) : M A := fun log => (Raise e, log).

Definition showWarning (msg : string) : M unit :=
  fun log => (Ok tt, (log ++ [ShowWarning msg])%list).

Definition web_eval (js : string) : M unit :=
  fun log => (Ok tt, (log ++ [WebEval js])%list).

(** [for x in xs: body], the loop's mutable local threaded as [s]. *)
Fixpoint for_each {A S} (xs : list A) (body : A -> S -> M S) (s : S) : M S :=
  match xs with
  | [] => ret s
  | x :: xs' => bind (body x s) (for_each xs' body)
  end.

Definition is_warning (e : event) : bool :=
  match e with ShowWarning _ => true | WebEval _ => false end.

Definition is_eval (e : event) : bool :=
  match e with ShowWarning _ => false | WebEval _ => true end.

Definition count_warnings (log : list event) : nat :=
  List.length (filter is_warning log).

Definition count_evals (log : list event) : nat :=
  List.length (filter is_eval log).

End Eff.

Module EffNotations.
Notation "x <- m ;; k" := (Eff.bind m (fun x => k))
  (at level 61, m at next level, right associativity).
Notation "m ;;; k" := (Eff.bind m (fun _ => k))
  (at level 61, right associativity).
End EffNotations.

(** ** The pattern [TONE_CSS_RULE] *)

Module ToneRe.
Import PyStr.

(** A match of the pattern of line 117: [group0] is the matched text,
    [group1] the dot, the word tone and one digit, [group2] the text
    between the braces. *)
Record re_match : Type :=
  mk_match { group0 : string; group1 : string; group2 : string }.

(** The starred blank: the blanks at the head of [s]... *)
Fixpoint blanks (s : string) : string :=
  match s with
  | String c r => if Ascii.eqb c " " then String c (blanks r) else EmptyString
  | EmptyString => EmptyString
  end.

(** ... and what follows them. *)
Fixpoint skip_blanks (s : string) : string :=
  match s with
  | String c r => if Ascii.eqb c " " then skip_blanks r else s
  | EmptyString => EmptyString
  end.

(** The starred class of all characters but the closing brace, then
    the closing brace: the text up to the first closing brace, which
    must be there. *)
Fixpoint take_body (s : string) : option string :=
  match s with
  | EmptyString => None
  | String c r =>
      if Ascii.eqb c "}" then Some EmptyString
      else option_map (String c) (take_body r)
  end.

(** A match of the pattern that starts at the head of [s]. *)
Definition match_here (s : string) : option re_match :=
  if startswith ".tone" s then
    match slice_from 5 s with
    | String d r =>
        if is_digit d then
          match skip_blanks r with
          | String c r' =>
              if Ascii.eqb c "{" then
                match take_body r' with
                | Some body =>
                    let g1 := ".tone" ++ String d EmptyString in
                    Some (mk_match (g1 ++ blanks r ++ "{" ++ body ++ "}") g1 body)
                | None => None
                end
              else None
          | EmptyString => None
          end
        else None
    | EmptyString => None
    end
  else None.

(** [TONE_CSS_RULE.search(s)]: the match at the leftmost position
    that has one. *)
Fixpoint search (s : string) : option re_match :=
  match match_here s with
  | Some m => Some m
  | None =>
      match s with
      | EmptyString => None
      | String _ s' => search s'
      end
  end.

End ToneRe.

(** ** The injectors and the version dispatch *)

Module Edit.
Import PyStr Eff EffNotations ToneRe.

Definition WARN_ONE_LINER : string :=
  "WARN: could not parse CSS tone rule. " ++
  "Currently, tone CSS rules need to be one liners.".

Definition WARN_UNSUPPORTED : string :=
  "Chinese tone styling has not been implemented for your current Anki version. " ++
  "Supported versions are Anki 2.1.49 as well as 2.1.54 and later.".

(** The script text that follows the rule array (lines 163-174). *)
Definition MODERN_JS_TAIL : string :=
  LF ++
  "    require(" ++ DQ ++ "anki/ui" ++ DQ ++ ").loaded.then(() => " ++ LF ++
  "      require(" ++ DQ ++ "anki/RichTextInput" ++ DQ ++ ").instances.forEach(inst =>" ++ LF ++
  "        inst.customStyles.then(styles => {" ++ LF ++
  "          var sheet = styles.styleMap.get(" ++ DQ ++ "userBase" ++ DQ ++ ").element.sheet;" ++ LF ++
  "          CSSRULES.forEach(rule =>" ++ LF ++
  "            sheet.insertRule(rule)" ++ LF ++
  "          );" ++ LF ++
  "        })" ++ LF ++
  "      )" ++ LF ++
  "    );" ++ LF ++
  "    ".

(** Lines 152-160: the loop that fills [rules] with whole lines. *)
Definition tone_rules_anki2_1_54 (css : string) : M (list string) :=
  for_each (split "010" css)
    (fun line rules =>
       if contains ".tone" line then
         match search line with
         | Some _ => ret (rules ++ [line])%list
         | None => showWarning WARN_ONE_LINER ;;; ret rules
         end
       else ret rules)
    [].

Definition append_tone_styling_anki2_1_54 (css : string) : M unit :=
  rules <- tone_rules_anki2_1_54 css ;;
  let js := "var CSSRULES = " ++ json_dumps rules ++ ";" in
  let js := js ++ MODERN_JS_TAIL in
  web_eval js.

(** Lines 178-186: the loop that fills [rules] with the two groups. *)
Definition tone_rules_anki2_1_49 (css : string) : M (list (string * string)) :=
  for_each (split "010" css)
    (fun line rules =>
       if startswith ".tone" line then
         match search line with
         | Some m => ret (rules ++ [(group1 m, group2 m)])%list
         | None => showWarning WARN_ONE_LINER ;;; ret rules
         end
       else ret rules)
    [].

(** The statement of line 193. *)
Definition css_statement (rulename property value : string) : string :=
  "jQuery('" ++ strip rulename ++ "', this.shadowRoot).css('" ++
  strip property ++ "', '" ++ strip value ++ "');" ++ LF.

(** Lines 188-193: the nested loops that build [inner_js]; unpacking
    [part.split(':', 1)] into two names raises unless it has two items. *)
Definition inner_js_of (rules : list (string * string)) : M string :=
  for_each rules
    (fun rule inner_js =>
       let '(rulename, ruledef) := rule in
       for_each (split ";" ruledef)
         (fun part inner_js =>
            if contains ":" part then
              match split1 ":" part with
              | [property; value] =>
                  ret (inner_js ++ css_statement rulename property value)
              | _ => raise ValueError
              end
            else ret inner_js)
         inner_js)
    "".

Definition legacy_js (inner_js : string) : string :=
  "jQuery('div.field').each(function () {" ++ LF ++ inner_js ++ "})".

Definition append_tone_styling_anki2_1_49 (css : string) : M unit :=
  rules <- tone_rules_anki2_1_49 css ;;
  inner_js <- inner_js_of rules ;;
  let js := legacy_js inner_js in
  web_eval js.

(** The three bindings [append_tone_styling] can get at lines 200-208. *)
Inductive strategy : Type :=
| Anki2_1_49
| Anki2_1_54
| NoOp.

(** Line 199: [int(x) for x in version.split('.')]. *)
Fixpoint ints (xs : list string) : M (list Z) :=
  match xs with
  | [] => ret []
  | x :: xs' =>
      match int x with
      | Some n => ns <- ints xs' ;; ret (n :: ns)
      | None => raise ValueError
      end
  end.

(** Lines 200-208 on the parsed version. *)
Definition select (version : list Z) : M strategy :=
  if list_lt version [2; 1; 50]%Z then ret Anki2_1_49
  else if list_ge version [2; 1; 54]%Z then ret Anki2_1_54
  else showWarning WARN_UNSUPPORTED ;;; ret NoOp.

(** Lines 199-208: what loading the module does for a version string. *)
Definition load_module (version : string) : M strategy :=
  v <- ints (split "." version) ;;
  select v.

Definition append_tone_styling (s : strategy) (css : string) : M unit :=
  match s with
  | Anki2_1_49 => append_tone_styling_anki2_1_49 css
  | Anki2_1_54 => append_tone_styling_anki2_1_54 css
  | NoOp => ret tt
  end.

End Edit.

(** ** Notions used to state the properties *)

Module Spec.
Import PyStr Eff ToneRe Edit.

(** [p] occurs in [s] / at the head of [s]. *)
Definition is_substring (p s : string) : Prop := exists a b, s = a ++ p ++ b.
Definition is_prefix (p s : string) : Prop := exists b, s = p ++ b.

Fixpoint all_chars (P : ascii -> bool) (s : string) : bool :=
  match s with
  | EmptyString => true
  | String c r => P c && all_chars P r
  end.

Definition is_blank (c : ascii) : bool := Ascii.eqb c " ".
Definition not_rbrace (c : ascii) : bool := negb (Ascii.eqb c "}").
Definition not_newline (c : ascii) : bool := negb (Ascii.eqb c "010").

(** A line of a stylesheet: a text without a line feed. *)
Definition one_line (s : string) : bool := all_chars not_newline s.

(** The shape the pattern of line 117 accepts at the head of a text:
    the dot and the word tone, ONE decimal digit, any number of
    blanks (the character U+0020 only), an opening brace, a body free
    of closing braces, a closing brace. *)
Definition tone_rule_shape (m : re_match) : Prop :=
  exists d sp,
    is_digit d = true /\ all_chars is_blank sp = true /\
    all_chars not_rbrace (group2 m) = true /\
    group1 m = ".tone" ++ String d EmptyString /\
    group0 m = group1 m ++ sp ++ "{" ++ group2 m ++ "}".

(** A line holds a tone rule when such a text occurs somewhere in it. *)
Definition has_tone_rule (line : string) : Prop :=
  exists pre m post, tone_rule_shape m /\ line = pre ++ group0 m ++ post.

(** The order on version triples. *)
Definition lex3_lt (v w : Z * Z * Z) : Prop :=
  let '(a, b, c) := v in
  let '(a', b', c') := w in
  (a < a' \/ (a = a' /\ (b < b' \/ (b = b' /\ c < c'))))%Z.

Definition lex3_le (v w : Z * Z * Z) : Prop := lex3_lt v w \/ v = w.

(** The text before the first [sep] and the text after it, when [sep]
    occurs. *)
Fixpoint cut_first (sep : ascii) (s : string) : option (string * string) :=
  match s with
  | EmptyString => None
  | String c r =>
      if Ascii.eqb c sep then Some (EmptyString, r)
      else match cut_first sep r with
           | Some (a, b) => Some (String c a, b)
           | None => None
           end
  end.

(** The declaration pairs of a rule body, in the words of the
    specification: split on the semicolon; a segment with a colon is
    cut at its first colon into property and value, both trimmed; a
    segment without a colon is skipped. *)
Definition declaration_pairs (body : string) : list (string * string) :=
  flat_map
    (fun segment =>
       match cut_first ":" segment with
       | Some (property, value) => [(strip property, strip value)]
       | None => []
       end)
    (split ";" body).

(** One scoped assignment: set [property] to [value] on the elements
    matching [selector] under the field's shadow root. *)
Definition assignment (selector property value : string) : string :=
  "jQuery('" ++ selector ++ "', this.shadowRoot).css('" ++
  property ++ "', '" ++ value ++ "');" ++ LF.

Definition concat_all (l : list string) : string := fold_right append "" l.

(** The assignments of one parsed rule, one per declaration pair. *)
Definition assignments (rule : string * string) : string :=
  concat_all
    (map (fun pv => assignment (strip (fst rule)) (fst pv) (snd pv))
         (declaration_pairs (snd rule))).

(** What one line of the stylesheet adds to [rules] and to the log in
    the loop of each injector. *)
Definition modern_rules_of_line (line : string) : list string :=
  if contains ".tone" line
  then match search line with Some _ => [line] | None => [] end
  else [].

Definition modern_warnings_of_line (line : string) : list event :=
  if contains ".tone" line
  then match search line with Some _ => [] | None => [ShowWarning WARN_ONE_LINER] end
  else [].

Definition legacy_rules_of_line (line : string) : list (string * string) :=
  if startswith ".tone" line
  then match search line with Some m => [(group1 m, group2 m)] | None => [] end
  else [].

Definition legacy_warnings_of_line (line : string) : list event :=
  if startswith ".tone" line
  then match search line with Some _ => [] | None => [ShowWarning WARN_ONE_LINER] end
  else [].

(** Number of positions of [s] at which [p] starts. *)
Fixpoint count_occurrences (p s : string) : nat :=
  (if startswith p s then 1 else 0) +
  match s with
  | EmptyString => 0
  | String _ r => count_occurrences p r
  end.

End Spec.

(** ** More Python primitives, used by the editor hooks *)

Module PyMore.
Import PyStr.

(** [str(n)] for an integer. *)
Definition str_int (n : Z) : string := NilEmpty.string_of_int (Z.to_int n).

(** [x in l] for a list of strings. *)
Definition list_contains (x : string) (l : list string) : bool :=
  existsb (String.eqb x) l.

(** [l.remove(x)]: the first item equal to [x] goes; [None] stands for
    [ValueError]. *)
Fixpoint list_remove (x : string) (l : list string) : option (list string) :=
  match l with
  | [] => None
  | y :: l' =>
      if String.eqb y x then Some l'
      else option_map (cons y) (list_remove x l')
  end.

(** [l[i]]: a negative index counts from the end; [None] stands for
    [IndexError]. *)
Definition list_index {A : Type} (l : list A) (i : Z) : option A :=
  let n := Z.of_nat (List.length l) in
  if ((0 <=? i) && (i <? n))%Z then nth_error l (Z.to_nat i)
  else if ((- n <=? i) && (i <? 0))%Z then nth_error l (Z.to_nat (i + n))
  else None.

(** [s.replace(old, new)] for a non-empty [old]: the occurrences are
    found from left to right and do not overlap; [skip] counts the
    characters of a replaced occurrence still to pass. *)
Fixpoint replace_go (old new : string) (skip : nat) (s : string) : string :=
  match s with
  | EmptyString => EmptyString
  | String c r =>
      match skip with
      | S k => replace_go old new k r
      | O =>
          if startswith old s
          then new ++ replace_go old new (String.length old - 1) r
          else String c (replace_go old new 0 r)
      end
  end.

(** With an empty [old] the new text goes before every character and
    at the end. *)
Fixpoint interleave (new s : string) : string :=
  match s with
  | EmptyString => EmptyString
  | String c r => String c (new ++ interleave new r)
  end.

Definition replace (old new s : string) : string :=
  match old with
  | EmptyString => new ++ interleave new s
  | String _ _ => replace_go old new 0 s
  end.

End PyMore.

(** ** The editor hooks: [webviewDidInit] and [EditManager] *)

Module Manager.
Import PyStr PyMore.

(** [isinstance(context, Editor)] is all the code asks of a context. *)
Inductive context : Type :=
| EditorContext
| OtherContext.

(** The text added to the page head (lines 35-43). *)
Definition BUTTON_SCRIPT : string :=
  "<script>" ++ LF ++
  "        function chineseSupport_activateButton() {" ++ LF ++
  "            jQuery('#chineseSupport').addClass('active');" ++ LF ++
  "        }" ++ LF ++
  "        function chineseSupport_deactivateButton() {" ++ LF ++
  "            jQuery('#chineseSupport').removeClass('active');" ++ LF ++
  "        }" ++ LF ++
  "        </script>" ++ LF ++
  "        ".

(** [webviewDidInit]: the new value of [web_content.head]. *)
Definition webviewDidInit (head : string) (ctx : context) : string :=
  match ctx with
  | EditorContext => head ++ BUTTON_SCRIPT
  | OtherContext => head
  end.

(** An editor: the object's identity and the id of the note type of
    the note it shows, [editor.note.note_type()['id']]. *)
Record editor : Type := mk_editor { editor_ref : nat; editor_mid : Z }.

(** A note: its identity, the id of its note type and the field names
    of that note type, [mw.col.models.field_names(note.note_type())]. *)
Record note : Type :=
  mk_note { note_ref : nat; note_mid : Z; note_field_names : list string }.

(** What the hooks do to the outside. *)
Inductive ui_event : Type :=
| AddButton (ed : nat)
| Eval (ed : nat) (js : string)
| SaveConfig
| UpdateFields (n : nat) (field : string) (allFields : list string)
| LoadNote (ed : nat) (focusTo : Z).

(** The mutable state the hooks share: [config['enabledModels']],
    [self.editors], and the events so far. *)
Record world : Type :=
  mk_world { enabledModels : list string;
             editors : list nat;
             ui_log : list ui_event }.

(** The exceptions of the hooks: the [ValueError] of [list.remove] and
    the [IndexError] of list indexing. *)
Inductive error : Type := ListRemoveError | IndexError.

Inductive outcome (A : Type) : Type :=
| Done (a : A)
| Raised (e : error).
Arguments Done {A} a.
Arguments Raised {A} e.

Definition SM (A : Type) : Type := world -> outcome A * world.

Definition sret {A} (a : A) : SM A := fun w => (Done a, w).

Definition sbind {A B} (m : SM A) (k : A -> SM B) : SM B :=
  fun w =>
    match m w with
    | (Done a, w') => k a w'
    | (Raised e, w') => (Raised e, w')
    end.

Definition sraise {A} (e : error) : SM A := fun w => (Raised e, w).

Definition get_enabled : SM (list string) := fun w => (Done (enabledModels w), w).

Definition set_enabled (l : list string) : SM unit :=
  fun w => (Done tt, mk_world l (editors w) (ui_log w)).

Definition get_editors : SM (list nat) := fun w => (Done (editors w), w).

Definition add_editor (ed : nat) : SM unit :=
  fun w => (Done tt, mk_world (enabledModels w) (editors w ++ [ed])%list (ui_log w)).

Definition emit (e : ui_event) : SM unit :=
  fun w => (Done tt, mk_world (enabledModels w) (editors w) (ui_log w ++ [e])%list).

(** [for x in xs: body] *)
Fixpoint sfor {A} (xs : list A) (body : A -> SM unit) : SM unit :=
  match xs with
  | [] => sret tt
  | x :: xs' => sbind (body x) (fun _ => sfor xs' body)
  end.

Notation "x <~ m ;; k" := (sbind m (fun x => k))
  (at level 61, m at next level, right associativity).
Notation "m ;;~ k" := (sbind m (fun _ => k))
  (at level 61, right associativity).

Definition ACTIVATE : string := "chineseSupport_activateButton()".
Definition DEACTIVATE : string := "chineseSupport_deactivateButton()".

Definition CLASS_ATTR : string := "class=" ++ DQ.

(** [setupButton]: [button_html] is what [editor.addButton(..)]
    returned, [night_mode] is [theme_manager.night_mode]; the result is
    the list [buttons] after the call. *)
Definition setupButton (night_mode : bool) (button_html : string)
           (buttons : list string) (ed : editor) : SM (list string) :=
  add_editor (editor_ref ed) ;;~
  emit (AddButton (editor_ref ed)) ;;~
  let button := button_html in
  let btnclass := if night_mode then "btn-night" else "btn-day" in
  let button :=
    replace CLASS_ATTR (CLASS_ATTR ++ "btn " ++ btnclass ++ " svelte-9lxpor ") button in
  sret (buttons ++ [button])%list.

(** [onToggle] *)
Definition onToggle (ed : editor) : SM unit :=
  let mid := str_int (editor_mid ed) in
  models <~ get_enabled ;;
  let enabled := list_contains mid models in
  let enabled := negb enabled in
  (if enabled then
     set_enabled (models ++ [mid])%list ;;~
     emit (Eval (editor_ref ed) ACTIVATE)
   else
     match list_remove mid models with
     | Some models' => set_enabled models'
     | None => sraise ListRemoveError
     end ;;~
     emit (Eval (editor_ref ed) DEACTIVATE)) ;;~
  emit SaveConfig.

(** [updateButton] *)
Definition updateButton (ed : editor) : SM unit :=
  models <~ get_enabled ;;
  let enabled := list_contains (str_int (editor_mid ed)) models in
  if enabled then emit (Eval (editor_ref ed) ACTIVATE)
  else emit (Eval (editor_ref ed) DEACTIVATE).

(** [_refreshAllEditors] *)
Definition _refreshAllEditors (focusTo : Z) : SM unit :=
  eds <~ get_editors ;;
  sfor eds (fun ed => emit (LoadNote ed focusTo)).

Section WithUpdateFields.

(** [update_fields] of the module [behavior]: what it returns; the
    changes it makes to the note are its own and appear here as the
    event [UpdateFields]. *)
Variable update_fields : note -> string -> list string -> bool.

(** [onFocusLost]: the first argument is not used. *)
Definition onFocusLost (changed : bool) (n : note) (index : Z) : SM bool :=
  models <~ get_enabled ;;
  let enabled := list_contains (str_int (note_mid n)) models in
  if negb enabled then sret false
  else
    let allFields := note_field_names n in
    match list_index allFields index with
    | None => sraise IndexError
    | Some field =>
        emit (UpdateFields (note_ref n) field allFields) ;;~
        (if update_fields n field allFields then
           let focusTo := ((index + 1) mod Z.of_nat (List.length allFields))%Z in
           _refreshAllEditors focusTo
         else sret tt) ;;~
        sret false
    end.

(** The calls the host makes through the hooks that [__init__]
    registers and through the button. *)
Inductive hook : Type :=
| InitButtons (night_mode : bool) (button_html : string)
              (buttons : list string) (ed : editor)
| LoadedNote (ed : editor)
| UnfocusedField (changed : bool) (n : note) (index : Z)
| ClickedButton (ed : editor).

(** The world after one call; an exception leaves it as it was when
    raised. *)
Definition after_hook (w : world) (h : hook) : world :=
  match h with
  | InitButtons night html buttons ed => snd (setupButton night html buttons ed w)
  | LoadedNote ed => snd (updateButton ed w)
  | UnfocusedField changed n index => snd (onFocusLost changed n index w)
  | ClickedButton ed => snd (onToggle ed w)
  end.

Definition after_hooks (w : world) (hs : list hook) : world :=
  fold_left after_hook hs w.

End WithUpdateFields.

(** The editors that a sequence of calls registers, in order. *)
Definition registered (hs : list hook) : list nat :=
  flat_map (fun h => match h with
                     | InitButtons _ _ _ ed => [editor_ref ed]
                     | _ => []
                     end) hs.

(** The position in the list that [l[i]] reads. *)
Definition position (len i : Z) : Z := if (0 <=? i)%Z then i else (i + len)%Z.

End Manager.

(** ** Reading back what [json.dumps] wrote *)

Module JsonSpec.
Import PyStr.

(** The characters from the blank to the tilde. *)
Definition is_printable (c : ascii) : bool :=
  let n := nat_of_ascii c in ((32 <=? n) && (n <=? 126))%nat.

Definition is_printable_or_newline (c : ascii) : bool :=
  is_printable c || Ascii.eqb c "010".

(** The value of a lower-case hexadecimal digit. *)
Definition hex_val (c : ascii) : option nat :=
  let n := nat_of_ascii c in
  if ((48 <=? n) && (n <=? 57))%nat then Some (n - 48)
  else if ((97 <=? n) && (n <=? 102))%nat then Some (n - 87)
  else None.

(** The character a two-character escape stands for. *)
Definition short_escape (e : ascii) : option ascii :=
  if Ascii.eqb e "\" then Some "\"%char
  else if Ascii.eqb e "034" then Some "034"%char
  else if Ascii.eqb e "b" then Some "008"%char
  else if Ascii.eqb e "f" then Some "012"%char
  else if Ascii.eqb e "n" then Some "010"%char
  else if Ascii.eqb e "r" then Some "013"%char
  else if Ascii.eqb e "t" then Some "009"%char
  else None.

End JsonSpec.

(** ** [json.dumps] and the modern script over all of Unicode *)

Module Wide.
Import PyStr Edit JsonSpec.

(** A Python [str] in full: the list of its code points, from 0 to
    0x10FFFF. *)
Definition ustring : Type := list N.

(** The code points of a text of characters below 256. *)
Fixpoint widen (s : string) : ustring :=
  match s with
  | EmptyString => []
  | String c r => N_of_ascii c :: widen r
  end.

Definition hex_digit_of (n : N) : ascii := hex_digit (N.to_nat n).

(** The four lower-case hexadecimal digits of a number below 0x10000,
    as ['{0:04x}'.format(n)] writes them. *)
Definition hex4 (n : N) : string :=
  String (hex_digit_of ((n / 4096) mod 16))
    (String (hex_digit_of ((n / 256) mod 16))
       (String (hex_digit_of ((n / 16) mod 16))
          (String (hex_digit_of (n mod 16)) EmptyString))).

(** One code point of [json.dumps(..)] output with [ensure_ascii]: the
    short escapes, the printable characters themselves, four
    hexadecimal digits for the other code points below 0x10000, and a
    pair of surrogates for those above. *)
Definition json_escape_cp (c : N) : string :=
  if (c =? 92)%N then "\\"
  else if (c =? 34)%N then "\" ++ DQ
  else if (c =? 8)%N then "\b"
  else if (c =? 12)%N then "\f"
  else if (c =? 10)%N then "\n"
  else if (c =? 13)%N then "\r"
  else if (c =? 9)%N then "\t"
  else if ((32 <=? c) && (c <=? 126))%N then String (ascii_of_N c) EmptyString
  else if (c <? 65536)%N then "\u" ++ hex4 c
  else
    let v := (c - 65536)%N in
    let s1 := N.lor 55296 (N.land (N.shiftr v 10) 1023) in
    let s2 := N.lor 56320 (N.land v 1023) in
    "\u" ++ hex4 s1 ++ "\u" ++ hex4 s2.

Fixpoint json_escape_u (s : ustring) : string :=
  match s with
  | [] => EmptyString
  | c :: s' => json_escape_cp c ++ json_escape_u s'
  end.

Definition json_string_u (s : ustring) : string := DQ ++ json_escape_u s ++ DQ.

(** [json.dumps(l)] for a list of strings of any code points. *)
Definition json_dumps_u (l : list ustring) : string :=
  "[" ++ join ", " (map json_string_u l) ++ "]".

(** Lines 162-174: the script for the rule list [rules]. *)
Definition modern_script (rules : list ustring) : string :=
  let js := "var CSSRULES = " ++ json_dumps_u rules ++ ";" in
  let js := js ++ MODERN_JS_TAIL in
  js.

(** A code point that is no surrogate. *)
Definition is_scalar (c : N) : bool :=
  ((c <? 55296) || ((57344 <=? c) && (c <? 1114112)))%N.

Definition is_high (v : N) : bool := ((55296 <=? v) && (v <? 56320))%N.
Definition is_low (v : N) : bool := ((56320 <=? v) && (v <? 57344))%N.

(** The number four hexadecimal digits stand for. *)
Definition hex4_val (a b c d : ascii) : option N :=
  match hex_val a, hex_val b, hex_val c, hex_val d with
  | Some x, Some y, Some z, Some w =>
      Some (4096 * N.of_nat x + 256 * N.of_nat y + 16 * N.of_nat z + N.of_nat w)%N
  | _, _, _, _ => None
  end.

Definition push_cp (c : N) (o : option (ustring * string)) : option (ustring * string) :=
  match o with
  | Some (x, rest) => Some (c :: x, rest)
  | None => None
  end.

(** Reads a JSON string from the character after its opening quote:
    the code points it stands for, a high surrogate followed by a low
    one giving the code point above 0xFFFF, and what follows the
    closing quote. *)
Fixpoint read_ustring (s : string) : option (ustring * string) :=
  match s with
  | EmptyString => None
  | String c r =>
      if Ascii.eqb c "034" then Some ([], r)
      else if Ascii.eqb c "\" then
        match r with
        | String e r1 =>
            if Ascii.eqb e "u" then
              match r1 with
              | String h3 (String h2 (String h1 (String h0 r2))) =>
                  match hex4_val h3 h2 h1 h0 with
                  | Some v =>
                      if is_high v then
                        match r2 with
                        | String x (String y
                            (String l3 (String l2 (String l1 (String l0 r3))))) =>
                            match hex4_val l3 l2 l1 l0 with
                            | Some w =>
                                if Ascii.eqb x "\" && Ascii.eqb y "u" && is_low w
                                then push_cp (65536 + (v - 55296) * 1024 + (w - 56320))
                                             (read_ustring r3)
                                else push_cp v (read_ustring r2)
                            | None => push_cp v (read_ustring r2)
                            end
                        | _ => push_cp v (read_ustring r2)
                        end
                      else push_cp v (read_ustring r2)
                  | None => None
                  end
              | _ => None
              end
            else
              match short_escape e with
              | Some c' => push_cp (N_of_ascii c') (read_ustring r1)
              | None => None
              end
        | EmptyString => None
        end
      else push_cp (N_of_ascii c) (read_ustring r)
  end.

(** What follows the first string of a non-empty array. *)
Definition array_tail_u (r : list ustring) : string :=
  match r with
  | [] => "]"
  | _ :: _ => ", " ++ join ", " (map json_string_u r) ++ "]"
  end.

End Wide.

(** ** Facts about the string primitives *)

Module StrFacts.
Import PyStr Spec.

Lemma append_nil_r (s : string) : s ++ "" = s.
Proof. induction s; simpl; congruence. Qed.

Lemma append_assoc (a b c : string) : (a ++ b) ++ c = a ++ b ++ c.
Proof. induction a; simpl; congruence. Qed.

(** Right-nest every concatenation. *)
Ltac str_norm :=
  repeat (progress (rewrite ?append_assoc; cbn [append]));
  repeat (progress (rewrite ?append_assoc in *; cbn [append] in * )).

Lemma startswith_spec (p s : string) :
  startswith p s = true <-> is_prefix p s.
Proof.
  unfold is_prefix. revert s.
  induction p as [|a p IH]; intros s; simpl.
  - split; [intros _; now exists s | reflexivity].
  - destruct s as [|b s]; simpl.
    + split; [discriminate | intros [r H]; discriminate].
    + rewrite andb_true_iff, Ascii.eqb_eq, IH. split.
      * intros [-> [r ->]]. now exists r.
      * intros [r H]. injection H as -> ->. split; [reflexivity | now exists r].
Qed.

Lemma contains_spec (p s : string) :
  contains p s = true <-> is_substring p s.
Proof.
  unfold is_substring.
  induction s as [|c s IH].
  - cbn [contains]. rewrite orb_false_r, startswith_spec. split.
    + intros [r H]. exists "", r. exact H.
    + intros [a [b H]]. destruct a; simpl in H.
      * now exists b.
      * discriminate.
  - cbn [contains]. rewrite orb_true_iff, startswith_spec, IH. split.
    + intros [[r H] | [a [b H]]].
      * exists "", r. exact H.
      * exists (String c a), b. simpl. now rewrite H.
    + intros [a [b H]]. destruct a as [|c' a]; simpl in H.
      * left. now exists b.
      * right. injection H as _ H. now exists a, b.
Qed.

Lemma contains_false (p s : string) :
  contains p s = false <-> ~ is_substring p s.
Proof.
  rewrite <- contains_spec. destruct (contains p s); split; intros H;
    try reflexivity; try discriminate; try (intros H'; discriminate).
  now elim H.
Qed.

Lemma is_substring_trans (p s t : string) :
  is_substring p s -> is_substring s t -> is_substring p t.
Proof.
  intros [a [b ->]] [a' [b' ->]].
  exists (a' ++ a), (b ++ b'). now rewrite !append_assoc.
Qed.

Lemma split_not_nil (sep : ascii) (s : string) : split sep s <> [].
Proof.
  destruct s as [|c s]; simpl; [discriminate |].
  destruct (Ascii.eqb c sep); [discriminate |].
  destruct (split sep s); discriminate.
Qed.

(** A text without the separator is its own single piece. *)
Lemma split_one_piece (sep : ascii) (s : string) :
  all_chars (fun c => negb (Ascii.eqb c sep)) s = true -> split sep s = [s].
Proof.
  induction s as [|c s IH]; simpl; [reflexivity |].
  rewrite andb_true_iff, negb_true_iff. intros [-> H].
  now rewrite (IH H).
Qed.

(** Splitting a text made of a first line, the separator and a rest. *)
Lemma split_app (sep : ascii) (l rest : string) :
  all_chars (fun c => negb (Ascii.eqb c sep)) l = true ->
  split sep (l ++ String sep rest) = l :: split sep rest.
Proof.
  induction l as [|c l IH]; simpl.
  - intros _. now rewrite Ascii.eqb_refl.
  - rewrite andb_true_iff, negb_true_iff. intros [-> H].
    now rewrite (IH H).
Qed.

Lemma split_join (sep : ascii) (ls : list string) :
  ls <> [] ->
  Forall (fun l => all_chars (fun c => negb (Ascii.eqb c sep)) l = true) ls ->
  split sep (join (String sep "") ls) = ls.
Proof.
  induction ls as [|l ls IH]; [congruence |].
  intros _ H. inversion H as [|? ? Hl Hls]; subst.
  destruct ls as [|l' ls].
  - simpl. now apply split_one_piece.
  - change (join (String sep "") (l :: l' :: ls))
      with (l ++ String sep "" ++ join (String sep "") (l' :: ls)).
    simpl append at 2.
    rewrite split_app by exact Hl.
    f_equal. apply IH; [discriminate | exact Hls].
Qed.

Lemma join_cons_char (sep : string) (c : ascii) (h : string) (t : list string) :
  join sep (String c h :: t) = String c (join sep (h :: t)).
Proof. destruct t; reflexivity. Qed.

Lemma join_split (sep : ascii) (s : string) :
  join (String sep "") (split sep s) = s.
Proof.
  induction s as [|c s IH]; simpl; [reflexivity |].
  destruct (Ascii.eqb_spec c sep) as [-> | Hne].
  - pose proof (split_not_nil sep s) as Hnil.
    destruct (split sep s) as [|h t]; [congruence |].
    simpl in *. now rewrite IH.
  - pose proof (split_not_nil sep s) as Hnil.
    destruct (split sep s) as [|h t]; [congruence |].
    rewrite join_cons_char. now rewrite IH.
Qed.

Lemma in_join (sep l : string) (ls : list string) :
  In l ls -> is_substring l (join sep ls).
Proof.
  induction ls as [|x ls IH]; [intros [] |].
  intros [-> | H].
  - destruct ls as [|y ls].
    + exists "", "". simpl. now rewrite append_nil_r.
    + exists "", (sep ++ join sep (y :: ls)). reflexivity.
  - destruct ls as [|y ls]; [destruct H |].
    destruct (IH H) as [a [b E]].
    exists (x ++ sep ++ a), b.
    change (join sep (x :: y :: ls)) with (x ++ sep ++ join sep (y :: ls)).
    rewrite E. now rewrite !append_assoc.
Qed.

(** Every piece of a split occurs in the text. *)
Lemma split_pieces_occur (sep : ascii) (s l : string) :
  In l (split sep s) -> is_substring l s.
Proof.
  intros H. rewrite <- (join_split sep s) at 1. now apply in_join.
Qed.

(** The pieces of a split are free of the separator. *)
Lemma split_pieces_clean (sep : ascii) (s : string) :
  Forall (fun l => all_chars (fun c => negb (Ascii.eqb c sep)) l = true)
         (split sep s).
Proof.
  induction s as [|c s IH]; simpl.
  - repeat constructor.
  - destruct (Ascii.eqb c sep) eqn:E.
    + constructor; [reflexivity | exact IH].
    + destruct (split sep s) as [|h t]; [repeat constructor; simpl; now rewrite E |].
      inversion IH as [|? ? Hh Ht]; subst.
      constructor; [simpl; now rewrite E, Hh | exact Ht].
Qed.

End StrFacts.

(** ** Facts about the pattern *)

Module ReFacts.
Import PyStr ToneRe Spec StrFacts.

Lemma blanks_skip (s : string) : blanks s ++ skip_blanks s = s.
Proof.
  induction s as [|c s IH]; simpl; [reflexivity |].
  destruct (Ascii.eqb c " "); simpl; congruence.
Qed.

Lemma blanks_all_blank (s : string) : all_chars is_blank (blanks s) = true.
Proof.
  induction s as [|c s IH]; simpl; [reflexivity |].
  destruct (Ascii.eqb c " ") eqn:E; simpl; [| reflexivity].
  unfold is_blank at 1. now rewrite E.
Qed.

(** Blanks followed by a character that is not a blank. *)
Lemma blanks_app (sp : string) (c : ascii) (r : string) :
  all_chars is_blank sp = true -> Ascii.eqb c " " = false ->
  blanks (sp ++ String c r) = sp /\ skip_blanks (sp ++ String c r) = String c r.
Proof.
  intros Hsp Hc. induction sp as [|b sp IH]; simpl in *.
  - now rewrite Hc.
  - apply andb_true_iff in Hsp as [Hb Hsp]. unfold is_blank in Hb.
    rewrite Hb. destruct (IH Hsp) as [-> ->]. split; reflexivity.
Qed.

Lemma take_body_sound (s body : string) :
  take_body s = Some body ->
  all_chars not_rbrace body = true /\ exists rest, s = body ++ "}" ++ rest.
Proof.
  revert body. induction s as [|c s IH]; intros body; simpl; [discriminate |].
  destruct (Ascii.eqb c "}") eqn:E.
  - intros [= <-]. apply Ascii.eqb_eq in E as ->.
    split; [reflexivity | now exists s].
  - destruct (take_body s) as [body' |]; simpl; [| discriminate].
    intros [= <-]. destruct (IH body' eq_refl) as [Hb [rest ->]].
    split; [| now exists rest].
    simpl. unfold not_rbrace at 1. now rewrite E.
Qed.

Lemma take_body_complete (body rest : string) :
  all_chars not_rbrace body = true ->
  take_body (body ++ "}" ++ rest) = Some body.
Proof.
  induction body as [|c body IH]; simpl; [reflexivity |].
  rewrite andb_true_iff. unfold not_rbrace at 1. rewrite negb_true_iff.
  intros [-> Hb]. simpl in IH. now rewrite (IH Hb).
Qed.

Lemma take_body_spec (s body : string) :
  take_body s = Some body <->
  all_chars not_rbrace body = true /\ exists rest, s = body ++ "}" ++ rest.
Proof.
  split; [apply take_body_sound |].
  intros [Hb [rest ->]]. now apply take_body_complete.
Qed.

(** The matcher finds a match at the head of [s] exactly when [s]
    starts with a text of the accepted shape, and the groups it
    returns are the only ones possible. *)
Lemma match_here_spec (s : string) (m : re_match) :
  match_here s = Some m <->
  tone_rule_shape m /\ exists rest, s = group0 m ++ rest.
Proof.
  unfold match_here, tone_rule_shape. split.
  - destruct (startswith ".tone" s) eqn:Hs; [| discriminate].
    apply startswith_spec in Hs as [r0 ->]. cbn [slice_from append].
    destruct r0 as [|d r]; [discriminate |].
    destruct (is_digit d) eqn:Hd; [| discriminate].
    pose proof (blanks_skip r) as Hr.
    destruct (skip_blanks r) as [|c r'] eqn:Hsk; [discriminate |].
    destruct (Ascii.eqb_spec c "{") as [-> | _]; [| discriminate].
    destruct (take_body r') as [body |] eqn:Hb; [| discriminate].
    intros [= <-]. cbn [group0 group1 group2].
    apply take_body_spec in Hb as [Hb [rest ->]].
    split.
    + exists d, (blanks r). repeat split; auto using blanks_all_blank.
    + exists rest. rewrite <- Hr at 1. now str_norm.
  - intros [[d [sp [Hd [Hsp [Hb [H1 H0]]]]]] [rest ->]].
    rewrite H0, H1. cbn [append startswith Ascii.eqb Bool.eqb andb slice_from].
    rewrite Hd.
    destruct (blanks_app sp "{" (group2 m ++ "}" ++ rest) Hsp eq_refl) as [E1 E2].
    pose proof (take_body_complete (group2 m) rest Hb) as E3.
    str_norm. rewrite E1, E2. cbn [Ascii.eqb Bool.eqb]. rewrite E3.
    destruct m as [g0 g1 g2]. cbn [group0 group1 group2] in *.
    subst g0 g1. reflexivity.
Qed.

Lemma search_unfold (s : string) :
  search s =
  match match_here s with
  | Some m => Some m
  | None => match s with
            | EmptyString => None
            | String _ s' => search s'
            end
  end.
Proof. destruct s; reflexivity. Qed.

(** What [search] returns is a match, and no position to its left has
    one. *)
Lemma search_leftmost (s : string) (m : re_match) :
  search s = Some m ->
  exists pre post,
    tone_rule_shape m /\ s = pre ++ group0 m ++ post /\
    match_here (slice_from (String.length pre) s) = Some m /\
    forall k, k < String.length pre -> match_here (slice_from k s) = None.
Proof.
  induction s as [|c s IH]; [discriminate |].
  rewrite search_unfold.
  destruct (match_here (String c s)) as [m0 |] eqn:E.
  - intros [= ->]. destruct (proj1 (match_here_spec _ _) E) as [Hm [post Hs]].
    exists "", post. cbn [String.length slice_from append].
    repeat split; auto. intros k Hk. inversion Hk.
  - intros H. destruct (IH H) as [pre [post [Hm [Hs [Hat Hleft]]]]].
    exists (String c pre), post. cbn [String.length slice_from append].
    repeat split; auto; [now rewrite Hs |].
    intros [|k] Hk; cbn [slice_from]; [exact E |].
    apply Hleft. lia.
Qed.

Lemma search_finds (s : string) :
  has_tone_rule s -> exists m, search s = Some m.
Proof.
  intros [pre [m [post [Hm ->]]]].
  induction pre as [|c pre IH]; rewrite search_unfold.
  - assert (match_here ("" ++ group0 m ++ post) = Some m) as ->; [| now exists m].
    apply match_here_spec. split; [exact Hm | now exists post].
  - destruct (match_here (String c pre ++ group0 m ++ post)) as [m0 |];
      [now exists m0 |]. exact IH.
Qed.

(** [search] succeeds exactly on the lines that hold a tone rule. *)
Lemma search_some_iff (s : string) :
  (exists m, search s = Some m) <-> has_tone_rule s.
Proof.
  split; [| apply search_finds].
  intros [m H]. destruct (search_leftmost s m H) as [pre [post [Hm [Hs _]]]].
  now exists pre, m, post.
Qed.

Lemma search_none_iff (s : string) :
  search s = None <-> ~ has_tone_rule s.
Proof.
  rewrite <- search_some_iff. split.
  - intros H [m H']. congruence.
  - intros H. destruct (search s) as [m |]; [| reflexivity].
    elim H. now exists m.
Qed.

End ReFacts.

(** ** Facts about the loops of the two injectors *)

Module LoopFacts.
Import PyStr Eff EffNotations ToneRe Edit Spec StrFacts ReFacts.

(** A loop whose body only appends to its local and to the log. *)
Lemma for_each_collect {A R : Type} (f : A -> list R) (g : A -> list event)
      (body : A -> list R -> M (list R)) :
  (forall x rs log, body x rs log = (Ok (rs ++ f x)%list, (log ++ g x)%list)) ->
  forall xs rs log,
    for_each xs body rs log =
    (Ok (rs ++ flat_map f xs)%list, (log ++ flat_map g xs)%list).
Proof.
  intros Hbody xs. induction xs as [|x xs IH]; intros rs log; simpl.
  - unfold ret. now rewrite !app_nil_r.
  - unfold bind. rewrite Hbody, IH. now rewrite <- !app_assoc.
Qed.

Lemma modern_rules_lines (lines : list string) (rs : list string) (log : list event) :
  for_each lines
    (fun line rules =>
       if contains ".tone" line then
         match search line with
         | Some _ => ret (rules ++ [line])%list
         | None => showWarning WARN_ONE_LINER ;;; ret rules
         end
       else ret rules) rs log =
  (Ok (rs ++ flat_map modern_rules_of_line lines)%list,
   (log ++ flat_map modern_warnings_of_line lines)%list).
Proof.
  apply for_each_collect. intros x rs' log'.
  unfold modern_rules_of_line, modern_warnings_of_line.
  destruct (contains ".tone" x); [destruct (search x) |];
    unfold ret, bind, showWarning; now rewrite ?app_nil_r.
Qed.

Lemma legacy_rules_lines (lines : list string) (rs : list (string * string))
      (log : list event) :
  for_each lines
    (fun line rules =>
       if startswith ".tone" line then
         match search line with
         | Some m => ret (rules ++ [(group1 m, group2 m)])%list
         | None => showWarning WARN_ONE_LINER ;;; ret rules
         end
       else ret rules) rs log =
  (Ok (rs ++ flat_map legacy_rules_of_line lines)%list,
   (log ++ flat_map legacy_warnings_of_line lines)%list).
Proof.
  apply for_each_collect. intros x rs' log'.
  unfold legacy_rules_of_line, legacy_warnings_of_line.
  destruct (startswith ".tone" x); [destruct (search x) |];
    unfold ret, bind, showWarning; now rewrite ?app_nil_r.
Qed.

(** The loop of the modern injector, run on any log. *)
Lemma modern_rules_run (css : string) (log : list event) :
  tone_rules_anki2_1_54 css log =
  (Ok (flat_map modern_rules_of_line (split "010" css)),
   (log ++ flat_map modern_warnings_of_line (split "010" css))%list).
Proof. unfold tone_rules_anki2_1_54. now rewrite modern_rules_lines. Qed.

(** The loop of the legacy injector, run on any log. *)
Lemma legacy_rules_run (css : string) (log : list event) :
  tone_rules_anki2_1_49 css log =
  (Ok (flat_map legacy_rules_of_line (split "010" css)),
   (log ++ flat_map legacy_warnings_of_line (split "010" css))%list).
Proof. unfold tone_rules_anki2_1_49. now rewrite legacy_rules_lines. Qed.

Lemma modern_warnings_are_warnings (lines : list string) :
  forallb is_warning (flat_map modern_warnings_of_line lines) = true.
Proof.
  induction lines as [|l lines IH]; [reflexivity |].
  simpl. rewrite forallb_app, IH, andb_true_r.
  unfold modern_warnings_of_line.
  destruct (contains ".tone" l); [destruct (search l) |]; reflexivity.
Qed.

Lemma legacy_warnings_are_warnings (lines : list string) :
  forallb is_warning (flat_map legacy_warnings_of_line lines) = true.
Proof.
  induction lines as [|l lines IH]; [reflexivity |].
  simpl. rewrite forallb_app, IH, andb_true_r.
  unfold legacy_warnings_of_line.
  destruct (startswith ".tone" l); [destruct (search l) |]; reflexivity.
Qed.

(** [split1] cuts where [cut_first] does. *)
Lemma split1_cut (sep : ascii) (s : string) :
  match cut_first sep s with
  | Some (a, b) => split1 sep s = [a; b]
  | None => split1 sep s = [s]
  end.
Proof.
  induction s as [|c s IH]; simpl; [reflexivity |].
  destruct (Ascii.eqb c sep); [reflexivity |].
  destruct (cut_first sep s) as [[a b] |]; now rewrite IH.
Qed.

(** The membership test of line 191 succeeds where [cut_first] does. *)
Lemma contains_cut (sep : ascii) (s : string) :
  contains (String sep "") s = true <-> cut_first sep s <> None.
Proof.
  induction s as [|c s IH]; simpl; [split; [discriminate | congruence] |].
  rewrite Ascii.eqb_sym. destruct (Ascii.eqb c sep); simpl.
  - split; [discriminate | reflexivity].
  - rewrite IH. destruct (cut_first sep s) as [[a b] |]; split; congruence.
Qed.

(** The inner loop of lines 190-193 never raises: the unpacking of
    line 192 always finds two items. *)
Lemma inner_loop_run (rulename : string) (parts : list string)
      (inner_js : string) (log : list event) :
  for_each parts
    (fun part inner_js =>
       if contains ":" part then
         match split1 ":" part with
         | [property; value] =>
             ret (inner_js ++ css_statement rulename property value)
         | _ => raise ValueError
         end
       else ret inner_js) inner_js log =
  (Ok (inner_js ++
       concat_all
         (map (fun pv => assignment (strip rulename) (fst pv) (snd pv))
              (flat_map
                 (fun segment =>
                    match cut_first ":" segment with
                    | Some (property, value) => [(strip property, strip value)]
                    | None => []
                    end) parts))), log).
Proof.
  revert inner_js. induction parts as [|p parts IH]; intros inner_js; simpl.
  - unfold ret. now rewrite append_nil_r.
  - unfold bind.
    pose proof (split1_cut ":" p) as Hcut.
    pose proof (contains_cut ":" p) as Hin.
    destruct (cut_first ":" p) as [[a b] |].
    + assert (contains ":" p = true) as -> by (apply Hin; discriminate).
      rewrite Hcut. unfold ret at 1. rewrite IH.
      simpl. now rewrite append_assoc.
    + assert (contains ":" p = false) as ->.
      { destruct (contains ":" p); [| reflexivity].
        exfalso. now apply (proj1 Hin). }
      unfold ret at 1. now rewrite IH.
Qed.

Lemma outer_loop_run (rules : list (string * string)) (acc : string)
      (log : list event) :
  for_each rules
    (fun rule inner_js =>
       let '(rulename, ruledef) := rule in
       for_each (split ";" ruledef)
         (fun part inner_js =>
            if contains ":" part then
              match split1 ":" part with
              | [property; value] =>
                  ret (inner_js ++ css_statement rulename property value)
              | _ => raise ValueError
              end
            else ret inner_js)
         inner_js) acc log =
  (Ok (acc ++ concat_all (map assignments rules)), log).
Proof.
  revert acc. induction rules as [|[name def] rules IH]; intros acc.
  - simpl. unfold ret. now rewrite append_nil_r.
  - cbn [for_each]. unfold bind at 1. cbv beta iota.
    rewrite inner_loop_run. rewrite IH.
    cbn [map concat_all fold_right]. unfold assignments at 2, declaration_pairs.
    cbn [fst snd]. now rewrite append_assoc.
Qed.

(** The nested loops of lines 188-193. *)
Lemma inner_js_run (rules : list (string * string)) (log : list event) :
  inner_js_of rules log = (Ok (concat_all (map assignments rules)), log).
Proof. unfold inner_js_of. now rewrite outer_loop_run. Qed.

End LoopFacts.

(** ** The two injectors, run on any log *)

Module RunFacts.
Import PyStr Eff EffNotations ToneRe Edit Spec StrFacts ReFacts LoopFacts.

Lemma modern_run (css : string) (log : list event) :
  append_tone_styling_anki2_1_54 css log =
  (Ok tt,
   (log ++ flat_map modern_warnings_of_line (split "010" css) ++
    [WebEval ("var CSSRULES = " ++
              json_dumps (flat_map modern_rules_of_line (split "010" css)) ++
              ";" ++ MODERN_JS_TAIL)])%list).
Proof.
  unfold append_tone_styling_anki2_1_54, bind. rewrite modern_rules_run.
  unfold web_eval. rewrite <- app_assoc. now rewrite !append_assoc.
Qed.

Lemma legacy_run (css : string) (log : list event) :
  append_tone_styling_anki2_1_49 css log =
  (Ok tt,
   (log ++ flat_map legacy_warnings_of_line (split "010" css) ++
    [WebEval (legacy_js
                (concat_all
                   (map assignments
                        (flat_map legacy_rules_of_line (split "010" css)))))])%list).
Proof.
  unfold append_tone_styling_anki2_1_49, bind.
  rewrite legacy_rules_run, inner_js_run.
  unfold web_eval. now rewrite <- app_assoc.
Qed.

(** The version components are parsed without touching the log. *)
Lemma ints_log (xs : list string) (log : list event) :
  snd (ints xs log) = log.
Proof.
  revert log. induction xs as [|x xs IH]; intros log; simpl; [reflexivity |].
  destruct (int x); [| reflexivity].
  unfold bind. specialize (IH log). destruct (ints xs log) as [[ns | e] log'];
    simpl in *; now subst.
Qed.

Lemma flat_map_nil {A B : Type} (f : A -> list B) (l : list A) :
  (forall x, In x l -> f x = []) -> flat_map f l = [].
Proof.
  induction l as [|x l IH]; intros H; simpl; [reflexivity |].
  rewrite (H x (or_introl eq_refl)), IH; [reflexivity |].
  intros y Hy. apply H. now right.
Qed.

Lemma is_prefix_substring (p s : string) : is_prefix p s -> is_substring p s.
Proof. intros [b ->]. now exists "", b. Qed.

(** A line without [.tone] adds nothing under either injector. *)
Lemma no_tone_no_contribution (line : string) :
  ~ is_substring ".tone" line ->
  modern_rules_of_line line = [] /\ modern_warnings_of_line line = [] /\
  legacy_rules_of_line line = [] /\ legacy_warnings_of_line line = [].
Proof.
  intros H.
  unfold modern_rules_of_line, modern_warnings_of_line,
    legacy_rules_of_line, legacy_warnings_of_line.
  rewrite (proj2 (contains_false ".tone" line) H).
  destruct (startswith ".tone" line) eqn:E; [| now repeat split].
  elim H. now apply is_prefix_substring, startswith_spec.
Qed.

(** A line that does not start with [.tone] adds nothing under the
    legacy injector. *)
Lemma no_prefix_no_contribution (line : string) :
  startswith ".tone" line = false ->
  legacy_rules_of_line line = [] /\ legacy_warnings_of_line line = [].
Proof.
  intros H. unfold legacy_rules_of_line, legacy_warnings_of_line.
  now rewrite H.
Qed.

Lemma warnings_hold_no_eval (l : list event) :
  forallb is_warning l = true -> filter is_eval l = [].
Proof.
  induction l as [|e l IH]; simpl; [reflexivity |].
  rewrite andb_true_iff. intros [He Hl]. destruct e; [| discriminate].
  simpl. now apply IH.
Qed.

Lemma cut_first_spec (sep : ascii) (s a b : string) :
  cut_first sep s = Some (a, b) <->
  s = a ++ String sep b /\
  all_chars (fun c => negb (Ascii.eqb c sep)) a = true.
Proof.
  split.
  - revert a b. induction s as [|c s IH]; intros a b; simpl; [discriminate |].
    destruct (Ascii.eqb c sep) eqn:E.
    + intros [= <- <-]. apply Ascii.eqb_eq in E as ->. now split.
    + destruct (cut_first sep s) as [[a' b'] |]; [| discriminate].
      intros [= <- <-]. destruct (IH a' b' eq_refl) as [-> Ha].
      split; [reflexivity |]. simpl. now rewrite E.
  - intros [-> Ha]. induction a as [|c a IH]; simpl in *.
    + now rewrite Ascii.eqb_refl.
    + apply andb_true_iff in Ha as [Hc Ha]. apply negb_true_iff in Hc.
      rewrite Hc. now rewrite (IH Ha).
Qed.

Lemma contains_char_false (sep : ascii) (s : string) :
  contains (String sep "") s = false <->
  all_chars (fun c => negb (Ascii.eqb c sep)) s = true.
Proof.
  induction s as [|c s IH]; cbn [contains startswith all_chars];
    [split; reflexivity |].
  rewrite (Ascii.eqb_sym sep c). destruct (Ascii.eqb c sep); cbn [andb orb negb].
  - split; intros E; discriminate E.
  - exact IH.
Qed.

(** Every stylesheet is its lines joined by line feeds. *)
Lemma stylesheet_is_its_lines (css : string) :
  css = join LF (split "010" css) /\
  Forall (fun l => one_line l = true) (split "010" css).
Proof.
  split.
  - change LF with (String "010" ""). now rewrite join_split.
  - apply split_pieces_clean.
Qed.

(** The lines of a stylesheet put together from lines. *)
Lemma split_join_lines (ls : list string) :
  Forall (fun l => one_line l = true) ls ->
  split "010" (join LF ls) = match ls with [] => [""] | _ :: _ => ls end.
Proof.
  intros H. destruct ls as [|l ls]; [reflexivity |].
  change LF with (String "010" ""). apply split_join; [discriminate | exact H].
Qed.

Lemma modern_rules_on_lines (ls : list string) (log : list event) :
  Forall (fun l => one_line l = true) ls ->
  tone_rules_anki2_1_54 (join LF ls) log =
  (Ok (flat_map modern_rules_of_line ls),
   (log ++ flat_map modern_warnings_of_line ls)%list).
Proof.
  intros H. rewrite modern_rules_run, (split_join_lines ls H).
  destruct ls; reflexivity.
Qed.

Lemma legacy_rules_on_lines (ls : list string) (log : list event) :
  Forall (fun l => one_line l = true) ls ->
  tone_rules_anki2_1_49 (join LF ls) log =
  (Ok (flat_map legacy_rules_of_line ls),
   (log ++ flat_map legacy_warnings_of_line ls)%list).
Proof.
  intros H. rewrite legacy_rules_run, (split_join_lines ls H).
  destruct ls; reflexivity.
Qed.

(** A stylesheet that is one line. *)
Lemma modern_rules_one_line (line : string) (log : list event) :
  one_line line = true ->
  tone_rules_anki2_1_54 line log =
  (Ok (modern_rules_of_line line), (log ++ modern_warnings_of_line line)%list).
Proof.
  intros H. rewrite modern_rules_run, (split_one_piece "010" line H).
  simpl. now rewrite !app_nil_r.
Qed.

Lemma legacy_rules_one_line (line : string) (log : list event) :
  one_line line = true ->
  tone_rules_anki2_1_49 line log =
  (Ok (legacy_rules_of_line line), (log ++ legacy_warnings_of_line line)%list).
Proof.
  intros H. rewrite legacy_rules_run, (split_one_piece "010" line H).
  simpl. now rewrite !app_nil_r.
Qed.

(** A line between the lines before it and the lines after it: what
    each loop returns for the whole stylesheet, from what it returns
    for the two parts. *)
Lemma modern_line_between (before after : list string) (line : string)
      (log : list event) :
  Forall (fun l => one_line l = true) before ->
  Forall (fun l => one_line l = true) after ->
  one_line line = true ->
  exists rb wb ra wa,
    tone_rules_anki2_1_54 (join LF before) [] = (Ok rb, wb) /\
    tone_rules_anki2_1_54 (join LF after) [] = (Ok ra, wa) /\
    tone_rules_anki2_1_54 (join LF (before ++ line :: after)) log =
    (Ok (rb ++ modern_rules_of_line line ++ ra)%list,
     (log ++ wb ++ modern_warnings_of_line line ++ wa)%list).
Proof.
  intros Hb Ha Hl.
  exists (flat_map modern_rules_of_line before),
    (flat_map modern_warnings_of_line before),
    (flat_map modern_rules_of_line after),
    (flat_map modern_warnings_of_line after).
  rewrite !modern_rules_on_lines; auto.
  - repeat split. now rewrite !flat_map_app.
  - apply Forall_app. split; [exact Hb | now constructor].
Qed.

Lemma legacy_line_between (before after : list string) (line : string)
      (log : list event) :
  Forall (fun l => one_line l = true) before ->
  Forall (fun l => one_line l = true) after ->
  one_line line = true ->
  exists rb wb ra wa,
    tone_rules_anki2_1_49 (join LF before) [] = (Ok rb, wb) /\
    tone_rules_anki2_1_49 (join LF after) [] = (Ok ra, wa) /\
    tone_rules_anki2_1_49 (join LF (before ++ line :: after)) log =
    (Ok (rb ++ legacy_rules_of_line line ++ ra)%list,
     (log ++ wb ++ legacy_warnings_of_line line ++ wa)%list).
Proof.
  intros Hb Ha Hl.
  exists (flat_map legacy_rules_of_line before),
    (flat_map legacy_warnings_of_line before),
    (flat_map legacy_rules_of_line after),
    (flat_map legacy_warnings_of_line after).
  rewrite !legacy_rules_on_lines; auto.
  - repeat split. now rewrite !flat_map_app.
  - apply Forall_app. split; [exact Hb | now constructor].
Qed.

(** A line that starts with white space does not start with [.tone]. *)
Lemma indented_is_no_prefix (ws rest : string) :
  ws <> "" -> all_chars is_space ws = true ->
  startswith ".tone" (ws ++ rest) = false.
Proof.
  intros Hne Hws. destruct ws as [|c ws]; [congruence |].
  cbn [all_chars] in Hws. apply andb_true_iff in Hws as [Hc _].
  cbn [append startswith]. destruct (Ascii.eqb_spec "." c) as [<- | _];
    [discriminate Hc | reflexivity].
Qed.

(** No more legacy rules than lines that start with [.tone]. *)
Lemma legacy_rules_bounded (lines : list string) :
  List.length (flat_map legacy_rules_of_line lines) <=
  List.length (filter (startswith ".tone") lines).
Proof.
  induction lines as [|l lines IH]; [reflexivity |].
  cbn [flat_map filter]. rewrite length_app. unfold legacy_rules_of_line at 1.
  destruct (startswith ".tone" l); [destruct (search l) |];
    cbn [List.length]; lia.
Qed.

End RunFacts.

(** ** The properties of the specification *)

Module Claims.
Import PyStr Eff EffNotations ToneRe Edit Spec StrFacts ReFacts LoopFacts RunFacts.

(** C1. Version dispatch: when the host version string parses into the
    triple [(a, b, c)], loading the module binds the legacy injector for
    every triple below (2,1,50) and the modern injector for every triple
    at or above (2,1,54), both without a warning; for every triple in
    between it shows exactly one warning and binds an injector that does
    nothing.  The strings 2.1.49, 2.1.54, 2.1.60 and 2.1.51 select the
    legacy, modern, modern and unsupported binding. *)
Theorem version_dispatch :
  (forall (version : string) (a b c : Z) (log : list event),
      ints (split "." version) log = (Ok [a; b; c], log) ->
      (lex3_lt (a, b, c)%Z (2, 1, 50)%Z ->
       load_module version log = (Ok Anki2_1_49, log)) /\
      (lex3_le (2, 1, 54)%Z (a, b, c)%Z ->
       load_module version log = (Ok Anki2_1_54, log)) /\
      (lex3_le (2, 1, 50)%Z (a, b, c)%Z -> lex3_lt (a, b, c)%Z (2, 1, 54)%Z ->
       load_module version log =
       (Ok NoOp, (log ++ [ShowWarning WARN_UNSUPPORTED])%list))) /\
  (forall css log, append_tone_styling NoOp css log = (Ok tt, log)) /\
  load_module "2.1.49" [] = (Ok Anki2_1_49, []) /\
  load_module "2.1.54" [] = (Ok Anki2_1_54, []) /\
  load_module "2.1.60" [] = (Ok Anki2_1_54, []) /\
  load_module "2.1.51" [] = (Ok NoOp, [ShowWarning WARN_UNSUPPORTED]) /\
  count_warnings (snd (load_module "2.1.51" [])) = 1.
Proof.
  split; [| repeat split].
  intros version a b c log Hparse.
  unfold load_module, bind. rewrite Hparse.
  unfold select, lex3_le, lex3_lt. cbn [list_lt list_ge].
  repeat split.
  - intros H.
    destruct (Z.eqb_spec a 2), (Z.eqb_spec b 1), (Z.ltb_spec a 2),
      (Z.ltb_spec b 1), (Z.ltb_spec c 50), (Z.eqb_spec c 50);
      try reflexivity; lia.
  - intros [H | [= <- <- <-]]; [| reflexivity].
    destruct (Z.eqb_spec a 2), (Z.eqb_spec b 1), (Z.ltb_spec a 2),
      (Z.ltb_spec b 1), (Z.ltb_spec c 50), (Z.eqb_spec c 50),
      (Z.eqb_spec c 54), (Z.geb_spec a 2), (Z.geb_spec b 1), (Z.geb_spec c 54);
      try reflexivity; lia.
  - intros H50 H54.
    assert (a = 2 /\ b = 1 /\ 50 <= c < 54)%Z as [-> [-> Hc]].
    { destruct H50 as [H50 | [= <- <- <-]]; lia. }
    cbn [Z.eqb Pos.eqb Z.ltb Z.compare Pos.compare Pos.compare_cont].
    destruct (Z.ltb_spec c 50), (Z.eqb_spec c 50), (Z.eqb_spec c 54),
      (Z.geb_spec c 54); try reflexivity; lia.
Qed.

(** The version string 2.1.51 lies between the two boundaries. *)
Lemma version_dispatch_witness :
  load_module "2.1.51" [] = (Ok NoOp, ([] ++ [ShowWarning WARN_UNSUPPORTED])%list).
Proof.
  apply (proj1 version_dispatch "2.1.51" 2 1 51 [] eq_refl)%Z.
  - left. unfold lex3_lt. lia.
  - unfold lex3_lt. lia.
Defined.

(** C2 as stated fails: the modern injector does not keep the matched
    selector-and-body text alone; on a line that carries more than the
    rule it keeps the whole line. *)
Lemma modern_rule_text_counterexample :
  ~ (forall line m,
        one_line line = true -> contains ".tone" line = true ->
        search line = Some m ->
        tone_rules_anki2_1_54 line [] = (Ok [group0 m], [])).
Proof.
  intros H.
  specialize (H "span.tone1 {color: red;} /* first tone */"
                (mk_match ".tone1 {color: red;}" ".tone1" "color: red;")
                eq_refl eq_refl eq_refl).
  vm_compute in H. discriminate H.
Qed.

(** C2, amended. For every candidate line that matches the pattern, the
    modern injector keeps the whole line verbatim, wherever the line
    stands in the stylesheet; the matched selector-and-body text is a
    part of that line.  For the line [.tone1 { color: red; }] it yields
    one rule, the line itself, in which the pattern finds the selector
    [.tone1] and the body [ color: red; ], and the line is embedded
    unchanged in the script. *)
Theorem modern_keeps_whole_line :
  (forall (before after : list string) (line : string) (m : re_match)
          (log : list event),
      Forall (fun l => one_line l = true) before ->
      Forall (fun l => one_line l = true) after ->
      one_line line = true ->
      contains ".tone" line = true ->
      search line = Some m ->
      is_substring (group0 m) line /\
      exists rb wb ra wa,
        tone_rules_anki2_1_54 (join LF before) [] = (Ok rb, wb) /\
        tone_rules_anki2_1_54 (join LF after) [] = (Ok ra, wa) /\
        tone_rules_anki2_1_54 (join LF (before ++ line :: after)) log =
        (Ok (rb ++ [line] ++ ra)%list, (log ++ wb ++ wa)%list)) /\
  search ".tone1 { color: red; }" =
  Some (mk_match ".tone1 { color: red; }" ".tone1" " color: red; ") /\
  strip " color: red; " = "color: red;" /\
  tone_rules_anki2_1_54 ".tone1 { color: red; }" [] =
  (Ok [".tone1 { color: red; }"], []) /\
  append_tone_styling_anki2_1_54 ".tone1 { color: red; }" [] =
  (Ok tt, [WebEval ("var CSSRULES = [" ++ DQ ++ ".tone1 { color: red; }" ++ DQ ++
                    "];" ++ MODERN_JS_TAIL)]).
Proof.
  split; [| repeat split].
  intros before after line m log Hb Ha Hl Hc Hm. split.
  - destruct (search_leftmost line m Hm) as [pre [post [_ [E _]]]].
    now exists pre, post.
  - exists (flat_map modern_rules_of_line before),
      (flat_map modern_warnings_of_line before),
      (flat_map modern_rules_of_line after),
      (flat_map modern_warnings_of_line after).
    rewrite !modern_rules_on_lines; auto.
    + repeat split. rewrite !flat_map_app. cbn [flat_map].
      unfold modern_rules_of_line at 2, modern_warnings_of_line at 2.
      rewrite Hc, Hm. reflexivity.
    + apply Forall_app. split; [exact Hb | now constructor].
Qed.

(** A line with text around the rule, between two other lines. *)
Lemma modern_keeps_whole_line_witness :
  is_substring ".tone1 {color: red;}" "span.tone1 {color: red;} /* first tone */" /\
  exists rb wb ra wa,
    tone_rules_anki2_1_54 (join LF ["body { margin: 0 }"]) [] = (Ok rb, wb) /\
    tone_rules_anki2_1_54 (join LF [".tone2 {color:blue}"]) [] = (Ok ra, wa) /\
    tone_rules_anki2_1_54
      (join LF (["body { margin: 0 }"] ++
                "span.tone1 {color: red;} /* first tone */" ::
                [".tone2 {color:blue}"])) [] =
    (Ok (rb ++ ["span.tone1 {color: red;} /* first tone */"] ++ ra)%list,
     ([] ++ wb ++ wa)%list).
Proof.
  apply (proj1 modern_keeps_whole_line
               ["body { margin: 0 }"] [".tone2 {color:blue}"]
               "span.tone1 {color: red;} /* first tone */"
               (mk_match ".tone1 {color: red;}" ".tone1" "color: red;") []).
  - repeat constructor.
  - repeat constructor.
  - reflexivity.
  - reflexivity.
  - reflexivity.
Defined.

(** C5. A candidate line that does not match the pattern adds exactly
    one warning and no rule, and the lines before and after it are
    processed as they would be without it; under the modern injector
    (a candidate contains [.tone]) and under the legacy one (a candidate
    starts with [.tone]). *)
Theorem malformed_line_warns_and_is_skipped
        (before after : list string) (line : string) (log : list event) :
  Forall (fun l => one_line l = true) before ->
  Forall (fun l => one_line l = true) after ->
  one_line line = true ->
  search line = None ->
  (contains ".tone" line = true ->
   exists rb wb ra wa,
     tone_rules_anki2_1_54 (join LF before) [] = (Ok rb, wb) /\
     tone_rules_anki2_1_54 (join LF after) [] = (Ok ra, wa) /\
     tone_rules_anki2_1_54 (join LF (before ++ line :: after)) log =
     (Ok (rb ++ ra)%list,
      (log ++ wb ++ [ShowWarning WARN_ONE_LINER] ++ wa)%list)) /\
  (startswith ".tone" line = true ->
   exists rb wb ra wa,
     tone_rules_anki2_1_49 (join LF before) [] = (Ok rb, wb) /\
     tone_rules_anki2_1_49 (join LF after) [] = (Ok ra, wa) /\
     tone_rules_anki2_1_49 (join LF (before ++ line :: after)) log =
     (Ok (rb ++ ra)%list,
      (log ++ wb ++ [ShowWarning WARN_ONE_LINER] ++ wa)%list)).
Proof.
  intros Hb Ha Hl Hm.
  assert (Forall (fun l => one_line l = true) (before ++ line :: after)) as Hall
      by (apply Forall_app; split; [exact Hb | now constructor]).
  split; intros Hc.
  - exists (flat_map modern_rules_of_line before),
      (flat_map modern_warnings_of_line before),
      (flat_map modern_rules_of_line after),
      (flat_map modern_warnings_of_line after).
    rewrite !modern_rules_on_lines; auto.
    repeat split. rewrite !flat_map_app. cbn [flat_map].
    unfold modern_rules_of_line at 2, modern_warnings_of_line at 2.
    rewrite Hc, Hm. reflexivity.
  - exists (flat_map legacy_rules_of_line before),
      (flat_map legacy_warnings_of_line before),
      (flat_map legacy_rules_of_line after),
      (flat_map legacy_warnings_of_line after).
    rewrite !legacy_rules_on_lines; auto.
    repeat split. rewrite !flat_map_app. cbn [flat_map].
    unfold legacy_rules_of_line at 2, legacy_warnings_of_line at 2.
    rewrite Hc, Hm. reflexivity.
Qed.

(** The line [.tone3 { color: green] lacks its closing brace. *)
Lemma malformed_line_witness :
  (exists rb wb ra wa,
     tone_rules_anki2_1_54 (join LF [".tone1 { color: red; }"]) [] = (Ok rb, wb) /\
     tone_rules_anki2_1_54 (join LF [".tone2 {color:blue}"]) [] = (Ok ra, wa) /\
     tone_rules_anki2_1_54
       (join LF ([".tone1 { color: red; }"] ++ ".tone3 { color: green" ::
                 [".tone2 {color:blue}"])) [] =
     (Ok (rb ++ ra)%list, ([] ++ wb ++ [ShowWarning WARN_ONE_LINER] ++ wa)%list)) /\
  (exists rb wb ra wa,
     tone_rules_anki2_1_49 (join LF [".tone1 { color: red; }"]) [] = (Ok rb, wb) /\
     tone_rules_anki2_1_49 (join LF [".tone2 {color:blue}"]) [] = (Ok ra, wa) /\
     tone_rules_anki2_1_49
       (join LF ([".tone1 { color: red; }"] ++ ".tone3 { color: green" ::
                 [".tone2 {color:blue}"])) [] =
     (Ok (rb ++ ra)%list, ([] ++ wb ++ [ShowWarning WARN_ONE_LINER] ++ wa)%list)).
Proof.
  assert (Forall (fun l => one_line l = true) [".tone1 { color: red; }"]) as Hb
      by (repeat constructor).
  assert (Forall (fun l => one_line l = true) [".tone2 {color:blue}"]) as Ha
      by (repeat constructor).
  destruct (malformed_line_warns_and_is_skipped
              [".tone1 { color: red; }"] [".tone2 {color:blue}"]
              ".tone3 { color: green" [] Hb Ha eq_refl eq_refl) as [Hmodern Hlegacy].
  split; [apply Hmodern | apply Hlegacy]; reflexivity.
Defined.

(** C3 as stated fails: for the single rule [.tone1] with the pair
    (color, red) the generated command does not contain two assignment
    statements. *)
Lemma legacy_two_statements_counterexample :
  ~ (exists js,
        append_tone_styling_anki2_1_49 ".tone1 { color: red; }" [] =
        (Ok tt, [WebEval js]) /\
        count_occurrences
          "jQuery('.tone1', this.shadowRoot).css('color', 'red');" js = 2).
Proof.
  intros [js [Hrun Hcount]].
  vm_compute in Hrun. injection Hrun as <-.
  vm_compute in Hcount. discriminate Hcount.
Qed.

(** C3, amended. Legacy injection over the single rule [.tone1] whose
    body decomposes into the one pair (color, red) produces a command
    that contains exactly one scoped assignment statement, setting
    [color] to [red] on the elements matching [.tone1] under
    [this.shadowRoot], inside a single iteration construct over the
    field roots [div.field]; the number of field roots is no input of
    the generation. *)
Theorem legacy_one_statement_in_one_loop (body : string) (log : list event) :
  declaration_pairs body = [("color", "red")] ->
  inner_js_of [(".tone1", body)] log =
  (Ok (assignment ".tone1" "color" "red"), log) /\
  legacy_js (assignment ".tone1" "color" "red") =
  "jQuery('div.field').each(function () {" ++ LF ++
  "jQuery('.tone1', this.shadowRoot).css('color', 'red');" ++ LF ++ "})" /\
  count_occurrences "jQuery('.tone1', this.shadowRoot).css('color', 'red');"
                    (legacy_js (assignment ".tone1" "color" "red")) = 1 /\
  count_occurrences "jQuery('div.field').each("
                    (legacy_js (assignment ".tone1" "color" "red")) = 1 /\
  append_tone_styling_anki2_1_49 ".tone1 { color: red; }" log =
  (Ok tt, (log ++ [WebEval (legacy_js (assignment ".tone1" "color" "red"))])%list).
Proof.
  intros Hpairs. split; [| split; [| split; [| split]]]; try reflexivity.
  rewrite inner_js_run. cbn [map concat_all fold_right].
  unfold assignments. cbn [fst snd]. rewrite Hpairs. reflexivity.
Qed.

(** The body of the line [.tone1 { color: red; }]. *)
Lemma legacy_one_statement_witness :
  inner_js_of [(".tone1", " color: red; ")] [] =
  (Ok (assignment ".tone1" "color" "red"), []).
Proof.
  exact (proj1 (legacy_one_statement_in_one_loop " color: red; " [] eq_refl)).
Defined.

(** C4 as stated fails: a tone-class name with two digits is not
    accepted; the line is a candidate under both injectors, the pattern
    does not match it, and it is answered by a warning. *)
Lemma two_digit_rule_counterexample :
  contains ".tone" ".tone12 { color: red }" = true /\
  startswith ".tone" ".tone12 { color: red }" = true /\
  search ".tone12 { color: red }" = None /\
  tone_rules_anki2_1_54 ".tone12 { color: red }" [] =
  (Ok [], [ShowWarning WARN_ONE_LINER]) /\
  tone_rules_anki2_1_49 ".tone12 { color: red }" [] =
  (Ok [], [ShowWarning WARN_ONE_LINER]).
Proof. repeat split. Qed.

(** C4, amended. A candidate line, wherever it stands in the
    stylesheet, is accepted as a tone rule exactly when it holds,
    anywhere in the line, a text of this shape: the dot and the word
    tone with exactly one decimal digit, any number of blank characters,
    an opening brace, a body of characters other than the closing
    brace, and a closing brace.  An accepted line adds one rule at its
    place among the rules of the other lines and no warning; any other
    candidate adds one warning at its place and no rule.  The line
    [.tone1 { color: red }] is accepted, the line
    [.tone12 { color: red }] is not. *)
Theorem line_accepted_iff_tone_rule
        (before after : list string) (line : string) (log : list event) :
  Forall (fun l => one_line l = true) before ->
  Forall (fun l => one_line l = true) after ->
  one_line line = true ->
  ((exists m, search line = Some m) <-> has_tone_rule line) /\
  (contains ".tone" line = true ->
   exists rb wb ra wa,
     tone_rules_anki2_1_54 (join LF before) [] = (Ok rb, wb) /\
     tone_rules_anki2_1_54 (join LF after) [] = (Ok ra, wa) /\
     (has_tone_rule line ->
      tone_rules_anki2_1_54 (join LF (before ++ line :: after)) log =
      (Ok (rb ++ [line] ++ ra)%list, (log ++ wb ++ wa)%list)) /\
     (~ has_tone_rule line ->
      tone_rules_anki2_1_54 (join LF (before ++ line :: after)) log =
      (Ok (rb ++ ra)%list,
       (log ++ wb ++ [ShowWarning WARN_ONE_LINER] ++ wa)%list))) /\
  (startswith ".tone" line = true ->
   exists rb wb ra wa,
     tone_rules_anki2_1_49 (join LF before) [] = (Ok rb, wb) /\
     tone_rules_anki2_1_49 (join LF after) [] = (Ok ra, wa) /\
     (has_tone_rule line ->
      exists m,
        search line = Some m /\ tone_rule_shape m /\
        tone_rules_anki2_1_49 (join LF (before ++ line :: after)) log =
        (Ok (rb ++ [(group1 m, group2 m)] ++ ra)%list, (log ++ wb ++ wa)%list)) /\
     (~ has_tone_rule line ->
      tone_rules_anki2_1_49 (join LF (before ++ line :: after)) log =
      (Ok (rb ++ ra)%list,
       (log ++ wb ++ [ShowWarning WARN_ONE_LINER] ++ wa)%list))) /\
  has_tone_rule ".tone1 { color: red }" /\
  ~ has_tone_rule ".tone12 { color: red }".
Proof.
  intros Hb Ha Hl. split; [apply search_some_iff |].
  split; [| split; [| split]].
  - intros Hc.
    destruct (modern_line_between before after line log Hb Ha Hl)
      as [rb [wb [ra [wa [Hrb [Hra Hrun]]]]]].
    exists rb, wb, ra, wa. split; [exact Hrb |]. split; [exact Hra |].
    rewrite Hrun. unfold modern_rules_of_line, modern_warnings_of_line.
    rewrite Hc. split.
    + intros H. apply search_some_iff in H as [m ->]. reflexivity.
    + intros H. apply search_none_iff in H. now rewrite H.
  - intros Hc.
    destruct (legacy_line_between before after line log Hb Ha Hl)
      as [rb [wb [ra [wa [Hrb [Hra Hrun]]]]]].
    exists rb, wb, ra, wa. split; [exact Hrb |]. split; [exact Hra |].
    rewrite Hrun. unfold legacy_rules_of_line, legacy_warnings_of_line.
    rewrite Hc. split.
    + intros H. apply search_some_iff in H as [m Hm]. exists m.
      destruct (search_leftmost line m Hm) as [_ [_ [Hshape _]]].
      rewrite Hm. repeat split; auto.
    + intros H. apply search_none_iff in H. now rewrite H.
  - apply search_some_iff. eexists. reflexivity.
  - apply search_none_iff. reflexivity.
Qed.

(** The accepted line [.tone1 { color: red }] between a line that is
    no candidate and the rejected line [.tone12 { color: red }]. *)
Lemma line_accepted_witness :
  exists rb wb ra wa,
    tone_rules_anki2_1_54 (join LF ["body { margin: 0 }"]) [] = (Ok rb, wb) /\
    tone_rules_anki2_1_54 (join LF [".tone12 { color: red }"]) [] = (Ok ra, wa) /\
    tone_rules_anki2_1_54
      (join LF (["body { margin: 0 }"] ++ ".tone1 { color: red }" ::
                [".tone12 { color: red }"])) [] =
    (Ok (rb ++ [".tone1 { color: red }"] ++ ra)%list, ([] ++ wb ++ wa)%list).
Proof.
  assert (Forall (fun l => one_line l = true) ["body { margin: 0 }"]) as Hb
      by (repeat constructor).
  assert (Forall (fun l => one_line l = true) [".tone12 { color: red }"]) as Ha
      by (repeat constructor).
  destruct (line_accepted_iff_tone_rule
              ["body { margin: 0 }"] [".tone12 { color: red }"]
              ".tone1 { color: red }" [] Hb Ha eq_refl)
    as [_ [Hmodern [_ [Hhas _]]]].
  destruct (Hmodern eq_refl) as [rb [wb [ra [wa [Hrb [Hra [Hyes _]]]]]]].
  exists rb, wb, ra, wa. split; [exact Hrb |]. split; [exact Hra |].
  exact (Hyes Hhas).
Defined.

(** C6. Candidate selection.  Under the modern injector a line,
    wherever it stands in the stylesheet, is looked at (it ends as a
    rule or as a warning at its place) exactly when [.tone] occurs in
    it; under the legacy injector exactly when it starts with [.tone],
    so that a line with white space before [.tone] gives neither a rule
    nor a warning; a line that is no candidate leaves the result of the
    other lines as it is; and a stylesheet in which [.tone] does not
    occur gives no rule and no warning under either. *)
Theorem candidate_selection :
  (forall before after line log,
      Forall (fun l => one_line l = true) before ->
      Forall (fun l => one_line l = true) after ->
      one_line line = true ->
      exists rb wb ra wa,
        tone_rules_anki2_1_54 (join LF before) [] = (Ok rb, wb) /\
        tone_rules_anki2_1_54 (join LF after) [] = (Ok ra, wa) /\
        (is_substring ".tone" line ->
         (exists m,
             search line = Some m /\
             tone_rules_anki2_1_54 (join LF (before ++ line :: after)) log =
             (Ok (rb ++ [line] ++ ra)%list, (log ++ wb ++ wa)%list)) \/
         (search line = None /\
          tone_rules_anki2_1_54 (join LF (before ++ line :: after)) log =
          (Ok (rb ++ ra)%list,
           (log ++ wb ++ [ShowWarning WARN_ONE_LINER] ++ wa)%list))) /\
        (~ is_substring ".tone" line ->
         tone_rules_anki2_1_54 (join LF (before ++ line :: after)) log =
         (Ok (rb ++ ra)%list, (log ++ wb ++ wa)%list))) /\
  (forall before after line log,
      Forall (fun l => one_line l = true) before ->
      Forall (fun l => one_line l = true) after ->
      one_line line = true ->
      exists rb wb ra wa,
        tone_rules_anki2_1_49 (join LF before) [] = (Ok rb, wb) /\
        tone_rules_anki2_1_49 (join LF after) [] = (Ok ra, wa) /\
        (is_prefix ".tone" line ->
         (exists m,
             search line = Some m /\
             tone_rules_anki2_1_49 (join LF (before ++ line :: after)) log =
             (Ok (rb ++ [(group1 m, group2 m)] ++ ra)%list,
              (log ++ wb ++ wa)%list)) \/
         (search line = None /\
          tone_rules_anki2_1_49 (join LF (before ++ line :: after)) log =
          (Ok (rb ++ ra)%list,
           (log ++ wb ++ [ShowWarning WARN_ONE_LINER] ++ wa)%list))) /\
        (~ is_prefix ".tone" line ->
         tone_rules_anki2_1_49 (join LF (before ++ line :: after)) log =
         (Ok (rb ++ ra)%list, (log ++ wb ++ wa)%list))) /\
  (forall before after ws rest log,
      Forall (fun l => one_line l = true) before ->
      Forall (fun l => one_line l = true) after ->
      ws <> "" -> all_chars is_space ws = true ->
      one_line (ws ++ ".tone" ++ rest) = true ->
      exists rb wb ra wa,
        tone_rules_anki2_1_49 (join LF before) [] = (Ok rb, wb) /\
        tone_rules_anki2_1_49 (join LF after) [] = (Ok ra, wa) /\
        tone_rules_anki2_1_49
          (join LF (before ++ (ws ++ ".tone" ++ rest) :: after)) log =
        (Ok (rb ++ ra)%list, (log ++ wb ++ wa)%list)) /\
  (forall css log,
      ~ is_substring ".tone" css ->
      tone_rules_anki2_1_54 css log = (Ok [], log) /\
      tone_rules_anki2_1_49 css log = (Ok [], log)).
Proof.
  split; [| split; [| split]].
  - intros before after line log Hb Ha Hl.
    destruct (modern_line_between before after line log Hb Ha Hl)
      as [rb [wb [ra [wa [Hrb [Hra Hrun]]]]]].
    exists rb, wb, ra, wa. split; [exact Hrb |]. split; [exact Hra |].
    rewrite Hrun. unfold modern_rules_of_line, modern_warnings_of_line. split.
    + intros H. apply contains_spec in H. rewrite H.
      destruct (search line) as [m |]; [left; exists m | right];
        split; reflexivity.
    + intros H. apply contains_false in H. now rewrite H.
  - intros before after line log Hb Ha Hl.
    destruct (legacy_line_between before after line log Hb Ha Hl)
      as [rb [wb [ra [wa [Hrb [Hra Hrun]]]]]].
    exists rb, wb, ra, wa. split; [exact Hrb |]. split; [exact Hra |].
    rewrite Hrun. unfold legacy_rules_of_line, legacy_warnings_of_line. split.
    + intros H. apply startswith_spec in H. rewrite H.
      destruct (search line) as [m |]; [left; exists m | right];
        split; reflexivity.
    + intros H. destruct (startswith ".tone" line) eqn:E; [| reflexivity].
      elim H. now apply startswith_spec.
  - intros before after ws rest log Hb Ha Hne Hws Hl.
    destruct (legacy_line_between before after _ log Hb Ha Hl)
      as [rb [wb [ra [wa [Hrb [Hra Hrun]]]]]].
    exists rb, wb, ra, wa. split; [exact Hrb |]. split; [exact Hra |].
    rewrite Hrun.
    pose proof (indented_is_no_prefix ws (".tone" ++ rest) Hne Hws) as E.
    now destruct (no_prefix_no_contribution _ E) as [-> ->].
  - intros css log H. rewrite modern_rules_run, legacy_rules_run.
    assert (forall l, In l (split "010" css) -> ~ is_substring ".tone" l) as Hlines.
    { intros l Hin Hsub. apply H.
      eapply is_substring_trans; [exact Hsub | eapply split_pieces_occur, Hin]. }
    rewrite !flat_map_nil; try (now rewrite app_nil_r);
      intros l Hin; now apply no_tone_no_contribution, Hlines.
Qed.

(** A rule line indented by one blank, between two rule lines, under
    the legacy injector. *)
Lemma candidate_selection_witness :
  exists rb wb ra wa,
    tone_rules_anki2_1_49 (join LF [".tone1 { color: red; }"]) [] = (Ok rb, wb) /\
    tone_rules_anki2_1_49 (join LF [".tone2 {color:blue}"]) [] = (Ok ra, wa) /\
    tone_rules_anki2_1_49
      (join LF ([".tone1 { color: red; }"] ++ (" " ++ ".tone" ++ "3 {a:b}") ::
                [".tone2 {color:blue}"])) [] =
    (Ok (rb ++ ra)%list, ([] ++ wb ++ wa)%list).
Proof.
  apply (proj1 (proj2 (proj2 candidate_selection))
               [".tone1 { color: red; }"] [".tone2 {color:blue}"]
               " " "3 {a:b}" []).
  - repeat constructor.
  - repeat constructor.
  - discriminate.
  - reflexivity.
  - reflexivity.
Defined.

(** C7. Legacy declaration decomposition: the statements the legacy
    injector generates for a matched rule are those of its declaration
    pairs, where the body is split on the semicolon, every segment with
    a colon is cut at its first colon into a property and a value, both
    trimmed, and a segment without a colon is skipped.  The line
    [.tone2 {color:blue}] gives exactly the pair (color, blue) and the
    line [.tone1 { color: red; }] exactly the pair (color, red). *)
Theorem legacy_declaration_decomposition :
  (forall rules log,
      inner_js_of rules log = (Ok (concat_all (map assignments rules)), log)) /\
  (forall css log,
      exists rules warnings,
        tone_rules_anki2_1_49 css log = (Ok rules, (log ++ warnings)%list) /\
        append_tone_styling_anki2_1_49 css log =
        (Ok tt,
         (log ++ warnings ++
          [WebEval (legacy_js (concat_all (map assignments rules)))])%list)) /\
  (forall segment property value,
      cut_first ":" segment = Some (property, value) <->
      segment = property ++ ":" ++ value /\ contains ":" property = false) /\
  (forall segment,
      cut_first ":" segment = None <-> contains ":" segment = false) /\
  tone_rules_anki2_1_49 ".tone2 {color:blue}" [] =
  (Ok [(".tone2", "color:blue")], []) /\
  declaration_pairs "color:blue" = [("color", "blue")] /\
  inner_js_of [(".tone2", "color:blue")] [] =
  (Ok (assignment ".tone2" "color" "blue"), []) /\
  tone_rules_anki2_1_49 ".tone1 { color: red; }" [] =
  (Ok [(".tone1", " color: red; ")], []) /\
  declaration_pairs " color: red; " = [("color", "red")] /\
  inner_js_of [(".tone1", " color: red; ")] [] =
  (Ok (assignment ".tone1" "color" "red"), []).
Proof.
  split; [apply inner_js_run |].
  split; [| split; [| split; [| repeat split]]].
  - intros css log.
    exists (flat_map legacy_rules_of_line (split "010" css)),
      (flat_map legacy_warnings_of_line (split "010" css)).
    split; [apply legacy_rules_run | apply legacy_run].
  - intros segment property value. rewrite cut_first_spec.
    now rewrite (contains_char_false ":" property).
  - intros segment. pose proof (contains_cut ":" segment) as H.
    destruct (cut_first ":" segment) as [[a b] |], (contains ":" segment);
      split; intros E; try reflexivity; try discriminate E.
    + exfalso. assert (false = true) as F by (apply H; discriminate).
      discriminate F.
    + exfalso. now apply (proj1 H eq_refl).
Qed.

(** C8. Extraction is total and repeatable: for every stylesheet text
    and under both injectors the loop returns a rule sequence and
    raises nothing, the sequence is the same whatever happened before
    (it does not depend on the log), and two calls in a row return the
    same sequence twice. *)
Theorem extraction_total_and_repeatable (css : string) :
  (exists rules,
      (forall log, exists log',
            tone_rules_anki2_1_54 css log = (Ok rules, log')) /\
      (forall log,
          fst ((r1 <- tone_rules_anki2_1_54 css ;;
                r2 <- tone_rules_anki2_1_54 css ;;
                ret (r1, r2)) log) = Ok (rules, rules))) /\
  (exists rules,
      (forall log, exists log',
            tone_rules_anki2_1_49 css log = (Ok rules, log')) /\
      (forall log,
          fst ((r1 <- tone_rules_anki2_1_49 css ;;
                r2 <- tone_rules_anki2_1_49 css ;;
                ret (r1, r2)) log) = Ok (rules, rules))).
Proof.
  split.
  - exists (flat_map modern_rules_of_line (split "010" css)). split.
    + intros log. eexists. apply modern_rules_run.
    + intros log. unfold bind. now rewrite !modern_rules_run.
  - exists (flat_map legacy_rules_of_line (split "010" css)). split.
    + intros log. eexists. apply legacy_rules_run.
    + intros log. unfold bind. now rewrite !legacy_rules_run.
Qed.

(** C9. One invocation of either injector sends exactly one script to
    the web view, after the warnings of its loop, and raises nothing;
    when no rule was extracted the legacy script has an empty iteration
    body and the modern script an empty rule array. *)
Theorem one_script_per_invocation (css : string) (log : list event) :
  (exists rules warnings js,
      tone_rules_anki2_1_54 css log = (Ok rules, (log ++ warnings)%list) /\
      append_tone_styling_anki2_1_54 css log =
      (Ok tt, (log ++ warnings ++ [WebEval js])%list) /\
      count_evals (warnings ++ [WebEval js]) = 1 /\
      (rules = [] -> js = "var CSSRULES = [];" ++ MODERN_JS_TAIL)) /\
  (exists rules warnings js,
      tone_rules_anki2_1_49 css log = (Ok rules, (log ++ warnings)%list) /\
      append_tone_styling_anki2_1_49 css log =
      (Ok tt, (log ++ warnings ++ [WebEval js])%list) /\
      count_evals (warnings ++ [WebEval js]) = 1 /\
      (rules = [] -> js = "jQuery('div.field').each(function () {" ++ LF ++ "})")).
Proof.
  split.
  - exists (flat_map modern_rules_of_line (split "010" css)),
      (flat_map modern_warnings_of_line (split "010" css)).
    eexists. split; [apply modern_rules_run |].
    split; [apply modern_run |]. split.
    + unfold count_evals. rewrite filter_app.
      now rewrite warnings_hold_no_eval by apply modern_warnings_are_warnings.
    + intros ->. reflexivity.
  - exists (flat_map legacy_rules_of_line (split "010" css)),
      (flat_map legacy_warnings_of_line (split "010" css)).
    eexists. split; [apply legacy_rules_run |].
    split; [apply legacy_run |]. split.
    + unfold count_evals. rewrite filter_app.
      now rewrite warnings_hold_no_eval by apply legacy_warnings_are_warnings.
    + intros ->. reflexivity.
Qed.

(** A stylesheet without tone rules, under the legacy injector. *)
Lemma one_script_witness :
  exists js,
    append_tone_styling_anki2_1_49 "body { margin: 0 }" [] = (Ok tt, [WebEval js]) /\
    js = "jQuery('div.field').each(function () {" ++ LF ++ "})".
Proof.
  destruct (one_script_per_invocation "body { margin: 0 }" [])
    as [_ [rules [warnings [js [Hrules [Hrun [_ Hempty]]]]]]].
  vm_compute in Hrules. injection Hrules as Hr Hw. subst rules warnings.
  exists js. split; [exact Hrun | now apply Hempty].
Defined.

(** C10. Under the legacy injector a candidate line, wherever it
    stands in the stylesheet, gives at most one rule: the two groups of
    the leftmost match of the pattern in the line, at the line's place
    among the rules of the other lines and with no warning.  Whatever
    follows that match on the line, further complete rules included, is
    dropped silently: the line [.tone1{a:b} .tone2{c:d}] gives the one
    rule ([.tone1], [a:b]) and no warning, alone or between other
    lines. *)
Theorem legacy_keeps_leftmost_rule_only :
  (forall before after line m log,
      Forall (fun l => one_line l = true) before ->
      Forall (fun l => one_line l = true) after ->
      one_line line = true -> startswith ".tone" line = true ->
      search line = Some m ->
      (exists rb wb ra wa,
          tone_rules_anki2_1_49 (join LF before) [] = (Ok rb, wb) /\
          tone_rules_anki2_1_49 (join LF after) [] = (Ok ra, wa) /\
          tone_rules_anki2_1_49 (join LF (before ++ line :: after)) log =
          (Ok (rb ++ [(group1 m, group2 m)] ++ ra)%list,
           (log ++ wb ++ wa)%list)) /\
      exists pre post,
        tone_rule_shape m /\ line = pre ++ group0 m ++ post /\
        forall k, k < String.length pre ->
                  match_here (slice_from k line) = None) /\
  (forall before after line log,
      Forall (fun l => one_line l = true) before ->
      Forall (fun l => one_line l = true) after ->
      one_line line = true ->
      exists rb wb ra wa mid wmid,
        tone_rules_anki2_1_49 (join LF before) [] = (Ok rb, wb) /\
        tone_rules_anki2_1_49 (join LF after) [] = (Ok ra, wa) /\
        tone_rules_anki2_1_49 (join LF (before ++ line :: after)) log =
        (Ok (rb ++ mid ++ ra)%list, (log ++ wb ++ wmid ++ wa)%list) /\
        List.length mid + List.length wmid <= 1) /\
  (forall css log,
      exists rules log',
        tone_rules_anki2_1_49 css log = (Ok rules, log') /\
        List.length rules <=
        List.length (filter (startswith ".tone") (split "010" css))) /\
  search ".tone1{a:b} .tone2{c:d}" = Some (mk_match ".tone1{a:b}" ".tone1" "a:b") /\
  match_here (slice_from 12 ".tone1{a:b} .tone2{c:d}") =
  Some (mk_match ".tone2{c:d}" ".tone2" "c:d") /\
  tone_rules_anki2_1_49 ".tone1{a:b} .tone2{c:d}" [] = (Ok [(".tone1", "a:b")], []) /\
  tone_rules_anki2_1_49
    (join LF [".tone4 {x:y}"; ".tone1{a:b} .tone2{c:d}"; ".tone3 {e:f}"]) [] =
  (Ok [(".tone4", "x:y"); (".tone1", "a:b"); (".tone3", "e:f")], []) /\
  append_tone_styling_anki2_1_49 ".tone1{a:b} .tone2{c:d}" [] =
  (Ok tt, [WebEval (legacy_js (assignment ".tone1" "a" "b"))]).
Proof.
  split; [| split; [| split; [| repeat split]]].
  - intros before after line m log Hb Ha Hl Hc Hm. split.
    + destruct (legacy_line_between before after line log Hb Ha Hl)
        as [rb [wb [ra [wa [Hrb [Hra Hrun]]]]]].
      exists rb, wb, ra, wa. split; [exact Hrb |]. split; [exact Hra |].
      rewrite Hrun. unfold legacy_rules_of_line, legacy_warnings_of_line.
      now rewrite Hc, Hm.
    + destruct (search_leftmost line m Hm) as [pre [post [Hs [E [_ Hleft]]]]].
      now exists pre, post.
  - intros before after line log Hb Ha Hl.
    destruct (legacy_line_between before after line log Hb Ha Hl)
      as [rb [wb [ra [wa [Hrb [Hra Hrun]]]]]].
    exists rb, wb, ra, wa, (legacy_rules_of_line line),
      (legacy_warnings_of_line line).
    split; [exact Hrb |]. split; [exact Hra |]. split; [exact Hrun |].
    unfold legacy_rules_of_line, legacy_warnings_of_line.
    destruct (startswith ".tone" line); [destruct (search line) |];
      cbn [List.length]; lia.
  - intros css log. rewrite legacy_rules_run. do 2 eexists.
    split; [reflexivity | apply legacy_rules_bounded].
Qed.

(** The line with two complete rules, between two rule lines. *)
Lemma legacy_leftmost_witness :
  exists rb wb ra wa,
    tone_rules_anki2_1_49 (join LF [".tone4 {x:y}"]) [] = (Ok rb, wb) /\
    tone_rules_anki2_1_49 (join LF [".tone3 {e:f}"]) [] = (Ok ra, wa) /\
    tone_rules_anki2_1_49
      (join LF ([".tone4 {x:y}"] ++ ".tone1{a:b} .tone2{c:d}" ::
                [".tone3 {e:f}"])) [] =
    (Ok (rb ++ [(".tone1", "a:b")] ++ ra)%list, ([] ++ wb ++ wa)%list).
Proof.
  assert (Forall (fun l => one_line l = true) [".tone4 {x:y}"]) as Hb
      by (repeat constructor).
  assert (Forall (fun l => one_line l = true) [".tone3 {e:f}"]) as Ha
      by (repeat constructor).
  exact (proj1 (proj1 legacy_keeps_leftmost_rule_only
                      [".tone4 {x:y}"] [".tone3 {e:f}"]
                      ".tone1{a:b} .tone2{c:d}"
                      (mk_match ".tone1{a:b}" ".tone1" "a:b") []
                      Hb Ha eq_refl eq_refl eq_refl)).
Defined.

End Claims.

(** ** Further properties of the tone-rule pipeline *)

Module Pipeline.
Import PyStr Eff EffNotations ToneRe Edit Spec JsonSpec Wide.
Import StrFacts ReFacts LoopFacts RunFacts.

Lemma all_chars_append (P : ascii -> bool) (a b : string) :
  all_chars P (a ++ b) = all_chars P a && all_chars P b.
Proof. induction a; simpl; [reflexivity | now rewrite IHa, andb_assoc]. Qed.

(** What a line gives under the modern injector is the line itself, and
    only when it is a candidate that matches. *)
Lemma modern_rule_origin (line r : string) :
  In r (modern_rules_of_line line) ->
  r = line /\ contains ".tone" line = true /\ exists m, search line = Some m.
Proof.
  unfold modern_rules_of_line.
  destruct (contains ".tone" line); [| intros []].
  destruct (search line) as [m |]; [| intros []].
  intros [<- | []]. repeat split. now exists m.
Qed.

Lemma legacy_rule_origin (line : string) (rule : string * string) :
  In rule (legacy_rules_of_line line) ->
  startswith ".tone" line = true /\
  exists m, search line = Some m /\ rule = (group1 m, group2 m).
Proof.
  unfold legacy_rules_of_line.
  destruct (startswith ".tone" line); [| intros []].
  destruct (search line) as [m |]; [| intros []].
  intros [<- | []]. split; [reflexivity | now exists m].
Qed.

(** The shape of the rules each loop keeps. *)
Lemma rules_well_formed (css : string) (log : list event) :
  (forall rules log',
      tone_rules_anki2_1_49 css log = (Ok rules, log') ->
      Forall (fun rule =>
                (exists d, is_digit d = true /\
                           fst rule = ".tone" ++ String d EmptyString) /\
                all_chars not_rbrace (snd rule) = true /\
                one_line (snd rule) = true /\
                is_substring (snd rule) css) rules) /\
  (forall rules log',
      tone_rules_anki2_1_54 css log = (Ok rules, log') ->
      Forall (fun rule =>
                In rule (split "010" css) /\ one_line rule = true /\
                is_substring ".tone" rule /\ has_tone_rule rule) rules).
Proof.
  pose proof (split_pieces_clean "010" css) as Hclean.
  rewrite Forall_forall in Hclean.
  split; intros rules log' Hrun.
  - rewrite legacy_rules_run in Hrun. injection Hrun as <- _.
    apply Forall_forall. intros rule Hin.
    apply in_flat_map in Hin as [line [Hline Hrule]].
    apply legacy_rule_origin in Hrule as [_ [m [Hm ->]]]. cbn [fst snd].
    destruct (search_leftmost line m Hm) as [pre [post [Hshape [E _]]]].
    destruct Hshape as [d [sp [Hd [Hsp [Hbody [H1 H0]]]]]].
    split; [now exists d |]. split; [exact Hbody |].
    assert (is_substring (group2 m) line) as Hsub.
    { exists (pre ++ group1 m ++ sp ++ "{"), ("}" ++ post).
      rewrite E, H0. now str_norm. }
    split.
    + specialize (Hclean line Hline). destruct Hsub as [a [b Hab]].
      change (one_line line = true) in Hclean. unfold one_line in *.
      rewrite Hab, !all_chars_append in Hclean.
      apply andb_true_iff in Hclean as [_ Hclean].
      now apply andb_true_iff in Hclean as [Hclean _].
    + eapply is_substring_trans; [exact Hsub |].
      now apply (split_pieces_occur "010").
  - rewrite modern_rules_run in Hrun. injection Hrun as <- _.
    apply Forall_forall. intros rule Hin.
    apply in_flat_map in Hin as [line [Hline Hrule]].
    apply modern_rule_origin in Hrule as [-> [Hc Hm]].
    split; [exact Hline |]. split; [exact (Hclean line Hline) |].
    split; [now apply contains_spec | now apply search_some_iff].
Qed.

(** X1. Whatever the stylesheet, every rule the legacy injector keeps
    has a selector made of the dot, the word tone and one decimal digit,
    and a body without a closing brace and without a line feed that is
    a part of the stylesheet; every rule the modern injector keeps is a
    line of the stylesheet that holds a tone rule. *)
Theorem extracted_rules_well_formed (css : string) (log : list event) :
  (forall rules log',
      tone_rules_anki2_1_49 css log = (Ok rules, log') ->
      Forall (fun rule =>
                (exists d, is_digit d = true /\
                           fst rule = ".tone" ++ String d EmptyString) /\
                all_chars not_rbrace (snd rule) = true /\
                one_line (snd rule) = true /\
                is_substring (snd rule) css) rules) /\
  (forall rules log',
      tone_rules_anki2_1_54 css log = (Ok rules, log') ->
      Forall (fun rule =>
                In rule (split "010" css) /\ one_line rule = true /\
                is_substring ".tone" rule /\ has_tone_rule rule) rules).
Proof. apply rules_well_formed. Qed.

(** A stylesheet with a valid rule, a broken one and an indented one. *)
Lemma extracted_rules_well_formed_witness :
  Forall (fun rule =>
            (exists d, is_digit d = true /\
                       fst rule = ".tone" ++ String d EmptyString) /\
            all_chars not_rbrace (snd rule) = true /\
            one_line (snd rule) = true /\
            is_substring (snd rule)
                         (join LF [".tone1 { color: red; }"; ".tone3 { color";
                                   " .tone4 {a:b}"]))
         [(".tone1", " color: red; ")].
Proof.
  apply (proj1 (extracted_rules_well_formed
                  (join LF [".tone1 { color: red; }"; ".tone3 { color";
                            " .tone4 {a:b}"]) [])
               [(".tone1", " color: red; ")]
               [ShowWarning WARN_ONE_LINER]).
  reflexivity.
Defined.

Lemma flat_map_lengths {A B C : Type} (f : A -> list B) (g : A -> list C)
      (p : A -> bool) (l : list A) :
  (forall x, List.length (f x) + List.length (g x) = if p x then 1 else 0) ->
  List.length (flat_map f l) + List.length (flat_map g l) =
  List.length (filter p l).
Proof.
  intros H. induction l as [|x l IH]; [reflexivity |].
  cbn [flat_map filter]. rewrite !length_app. specialize (H x).
  destruct (p x); cbn [List.length]; lia.
Qed.

(** X2. Every candidate line ends either as one rule or as one warning:
    under the modern injector the rules and the warnings together are as
    many as the lines that contain [.tone], under the legacy injector as
    many as the lines that start with [.tone]; nothing but warnings is
    added to the log. *)
Theorem rules_and_warnings_count_candidates (css : string) (log : list event) :
  (exists rules ws,
      tone_rules_anki2_1_54 css log = (Ok rules, (log ++ ws)%list) /\
      forallb is_warning ws = true /\
      List.length rules + List.length ws =
      List.length (filter (contains ".tone") (split "010" css))) /\
  (exists rules ws,
      tone_rules_anki2_1_49 css log = (Ok rules, (log ++ ws)%list) /\
      forallb is_warning ws = true /\
      List.length rules + List.length ws =
      List.length (filter (startswith ".tone") (split "010" css))).
Proof.
  split.
  - exists (flat_map modern_rules_of_line (split "010" css)),
      (flat_map modern_warnings_of_line (split "010" css)).
    split; [apply modern_rules_run |].
    split; [apply modern_warnings_are_warnings |].
    apply flat_map_lengths. intros line.
    unfold modern_rules_of_line, modern_warnings_of_line.
    destruct (contains ".tone" line); [destruct (search line) |]; reflexivity.
  - exists (flat_map legacy_rules_of_line (split "010" css)),
      (flat_map legacy_warnings_of_line (split "010" css)).
    split; [apply legacy_rules_run |].
    split; [apply legacy_warnings_are_warnings |].
    apply flat_map_lengths. intros line.
    unfold legacy_rules_of_line, legacy_warnings_of_line.
    destruct (startswith ".tone" line); [destruct (search line) |]; reflexivity.
Qed.

Lemma flat_map_fixed {A : Type} (f : A -> list A) (l : list A) :
  (forall x, In x l -> f x = [x]) -> flat_map f l = l.
Proof.
  induction l as [|x l IH]; intros H; [reflexivity |].
  cbn [flat_map]. rewrite (H x (or_introl eq_refl)), IH; [reflexivity |].
  intros y Hy. apply H. now right.
Qed.

(** The legacy rules of the lines the modern injector keeps are the
    legacy rules of all lines. *)
Lemma legacy_of_modern_rules (lines : list string) :
  flat_map legacy_rules_of_line (flat_map modern_rules_of_line lines) =
  flat_map legacy_rules_of_line lines.
Proof.
  induction lines as [|l lines IH]; [reflexivity |].
  cbn [flat_map]. rewrite flat_map_app, IH. f_equal.
  unfold modern_rules_of_line.
  destruct (contains ".tone" l) eqn:Hc; [destruct (search l) eqn:Hm |];
    cbn [flat_map]; rewrite ?app_nil_r; try reflexivity;
    unfold legacy_rules_of_line.
  - rewrite Hm. now destruct (startswith ".tone" l).
  - destruct (startswith ".tone" l) eqn:Hs; [| reflexivity].
    apply startswith_spec, is_prefix_substring, contains_spec in Hs. congruence.
Qed.

(** X3. Extracting again from what was extracted changes nothing: the
    rules the modern injector keeps, joined by line feeds, give the same
    rules and no warning under the modern injector, and under the legacy
    injector they give, without a warning, the legacy rules of the
    stylesheet they came from. *)
Theorem extraction_of_extracted_rules (css : string) (log log' : list event)
        (rules : list string) :
  tone_rules_anki2_1_54 css log = (Ok rules, log') ->
  (forall log2, tone_rules_anki2_1_54 (join LF rules) log2 = (Ok rules, log2)) /\
  (exists legacy_rules log3,
      tone_rules_anki2_1_49 css log = (Ok legacy_rules, log3) /\
      forall log2,
        tone_rules_anki2_1_49 (join LF rules) log2 = (Ok legacy_rules, log2)).
Proof.
  intros Hrun.
  destruct (rules_well_formed css log) as [_ Hwf].
  specialize (Hwf rules log' Hrun). rewrite Forall_forall in Hwf.
  assert (Forall (fun l => one_line l = true) rules) as Hlines
      by (apply Forall_forall; intros r Hr; now apply Hwf).
  assert (forall r, In r rules ->
                    contains ".tone" r = true /\ exists m, search r = Some m) as Hok.
  { intros r Hr. destruct (Hwf r Hr) as [_ [_ [Hc Hm]]].
    split; [now apply contains_spec | now apply search_some_iff]. }
  assert (flat_map modern_warnings_of_line rules = []) as Hnowarn.
  { apply flat_map_nil. intros r Hr. destruct (Hok r Hr) as [Hc [m Hm]].
    unfold modern_warnings_of_line. now rewrite Hc, Hm. }
  assert (flat_map legacy_warnings_of_line rules = []) as Hnowarn'.
  { apply flat_map_nil. intros r Hr. destruct (Hok r Hr) as [_ [m Hm]].
    unfold legacy_warnings_of_line. rewrite Hm.
    now destruct (startswith ".tone" r). }
  split.
  - intros log2. rewrite modern_rules_on_lines by exact Hlines.
    rewrite Hnowarn, app_nil_r. f_equal. f_equal.
    apply flat_map_fixed. intros r Hr. destruct (Hok r Hr) as [Hc [m Hm]].
    unfold modern_rules_of_line. now rewrite Hc, Hm.
  - rewrite modern_rules_run in Hrun. injection Hrun as Hrules _.
    exists (flat_map legacy_rules_of_line (split "010" css)),
      (log ++ flat_map legacy_warnings_of_line (split "010" css))%list.
    split; [apply legacy_rules_run |].
    intros log2. rewrite legacy_rules_on_lines by exact Hlines.
    rewrite Hnowarn', app_nil_r. f_equal. f_equal.
    rewrite <- Hrules. apply legacy_of_modern_rules.
Qed.

(** A stylesheet with a valid rule, a broken one and an indented one. *)
Lemma extraction_of_extracted_rules_witness :
  tone_rules_anki2_1_54 (join LF [".tone1 { color: red; }"; " .tone4 {a:b}"]) [] =
  (Ok [".tone1 { color: red; }"; " .tone4 {a:b}"], []).
Proof.
  exact (proj1 (extraction_of_extracted_rules
                  (join LF [".tone1 { color: red; }"; ".tone3 { color";
                            " .tone4 {a:b}"])
                  [] [ShowWarning WARN_ONE_LINER]
                  [".tone1 { color: red; }"; " .tone4 {a:b}"] eq_refl) []).
Defined.

(** The components are parsed up to the first that is no integer. *)
Lemma ints_run (xs : list string) (log : list event) :
  (Exists (fun x => int x = None) xs /\ ints xs log = (Raise ValueError, log)) \/
  (Forall (fun x => int x <> None) xs /\ exists v, ints xs log = (Ok v, log)).
Proof.
  induction xs as [|x xs IH]; [right; split; [constructor | now exists []] |].
  cbn [ints]. destruct (int x) as [n |] eqn:E.
  - unfold bind. destruct IH as [[Hex ->] | [Hall [v ->]]].
    + left. split; [now apply Exists_cons_tl | reflexivity].
    + right. split; [constructor; [congruence | exact Hall] |].
      now exists (n :: v).
  - left. split; [now apply Exists_cons_hd | reflexivity].
Qed.

Lemma select_total (v : list Z) (log : list event) :
  exists s log', select v log = (Ok s, log').
Proof.
  unfold select. destruct (list_lt v [2; 1; 50]%Z); [now eexists; eexists |].
  destruct (list_ge v [2; 1; 54]%Z); now eexists; eexists.
Qed.

(** X4. For a version string whose dot-separated components are each
    at most 640 characters long (the length up to which no interpreter
    limits the digits of [int]), loading the module raises [ValueError]
    exactly when some component is no integer literal (an empty
    component included); no injector is bound and no warning is shown
    then, and the module raises nothing else. *)
Theorem version_parse_failure (version : string) (log : list event) :
  Forall (fun x => String.length x <= str_digits_check_threshold)
         (split "." version) ->
  (load_module version log = (Raise ValueError, log) <->
   exists x, In x (split "." version) /\ int x = None) /\
  ((exists e log', load_module version log = (Raise e, log')) ->
   load_module version log = (Raise ValueError, log)).
Proof.
  intros _. unfold load_module, bind. rewrite <- Exists_exists.
  destruct (ints_run (split "." version) log) as [[Hex ->] | [Hall [v ->]]].
  - split; [split; [intros _; exact Hex | reflexivity] | reflexivity].
  - destruct (select_total v log) as [s [log'' E]]. rewrite E.
    split; [split; [discriminate |] | intros [e [log' H]]; discriminate H].
    intros Hex. apply Exists_exists in Hex as [x [Hin Hx]].
    rewrite Forall_forall in Hall. now elim (Hall x Hin).
Qed.

(** A release candidate: the third component is no integer. *)
Lemma version_parse_failure_witness :
  Forall (fun x => String.length x <= str_digits_check_threshold)
         (split "." "2.1.50rc1") /\
  load_module "2.1.50rc1" [] = (Raise ValueError, []).
Proof.
  assert (Forall (fun x => String.length x <= str_digits_check_threshold)
                 (split "." "2.1.50rc1")) as Hshort.
  { change (split "." "2.1.50rc1") with ["2"; "1"; "50rc1"].
    unfold str_digits_check_threshold.
    repeat (constructor; [cbn [String.length]; lia |]). constructor. }
  split; [exact Hshort |].
  apply (proj2 (proj1 (version_parse_failure "2.1.50rc1" [] Hshort))).
  exists "50rc1". split; [cbn; auto | reflexivity].
Defined.

(** X5. For a version of any number of components, the warning of the
    unsupported range is shown, and the injector that does nothing is
    bound, exactly when the version starts with 2, 1 and a third
    component from 50 to 53; every other version binds the legacy or the
    modern injector without a warning. *)
Theorem unsupported_window (v : list Z) (log : list event) :
  ((exists c rest, v = 2 :: 1 :: c :: rest /\ 50 <= c < 54)%Z /\
   select v log = (Ok NoOp, (log ++ [ShowWarning WARN_UNSUPPORTED])%list)) \/
  (~ (exists c rest, v = 2 :: 1 :: c :: rest /\ 50 <= c < 54)%Z /\
   (select v log = (Ok Anki2_1_49, log) \/ select v log = (Ok Anki2_1_54, log))).
Proof.
  unfold select.
  destruct v as [|a [|b [|c rest]]]; cbn [list_lt list_ge];
    try (replace (list_lt rest []) with false by (now destruct rest));
    try (replace (list_ge rest []) with true by (now destruct rest));
    repeat match goal with
           | |- context [Z.eqb ?x ?y] => destruct (Z.eqb_spec x y)
           | |- context [Z.ltb ?x ?y] => destruct (Z.ltb_spec x y)
           | |- context [Z.geb ?x ?y] => destruct (Z.geb_spec x y)
           end;
    try lia;
    first
      [ left; subst; split;
        [eexists; eexists; split; [reflexivity | lia] | reflexivity]
      | right; split;
        [ intros [c' [rest' [E Hc]]];
          first [discriminate E | injection E as E1 E2 E3 E4; lia]
        | first [left; reflexivity | right; reflexivity] ] ].
Qed.

(** Arithmetic with division and remainder by constants. *)
Ltac divlia := zify; Z.to_euclidean_division_equations; lia.

Lemma hex_digit_round (k : N) :
  (k < 16)%N -> hex_val (hex_digit_of k) = Some (N.to_nat k).
Proof.
  intros H. unfold hex_digit_of.
  assert (N.to_nat k < 16) as Hk by lia.
  remember (N.to_nat k) as n eqn:E. clear E H.
  do 16 (destruct n as [|n]; [reflexivity |]). lia.
Qed.

Lemma hex_digit_printable (k : N) :
  (k < 16)%N -> is_printable (hex_digit_of k) = true.
Proof.
  intros H. unfold hex_digit_of.
  assert (N.to_nat k < 16) as Hk by lia.
  remember (N.to_nat k) as n eqn:E. clear E H.
  do 16 (destruct n as [|n]; [reflexivity |]). lia.
Qed.

(** Four digits written are read back as the number. *)
Lemma hex4_round (n : N) :
  (n < 65536)%N ->
  hex4_val (hex_digit_of ((n / 4096) mod 16)) (hex_digit_of ((n / 256) mod 16))
           (hex_digit_of ((n / 16) mod 16)) (hex_digit_of (n mod 16)) = Some n.
Proof.
  intros H. unfold hex4_val.
  rewrite !hex_digit_round by (apply N.mod_lt; discriminate).
  rewrite !N2Nat.id. f_equal. divlia.
Qed.

Lemma hex4_printable (n : N) : all_chars is_printable (hex4 n) = true.
Proof.
  unfold hex4. cbn [all_chars].
  rewrite !hex_digit_printable by (apply N.mod_lt; discriminate). reflexivity.
Qed.

Lemma lor_below (base x : N) :
  (base = 55296 \/ base = 56320)%N -> (x < 1024)%N ->
  N.lor base x = (base + x)%N.
Proof.
  intros Hb Hx.
  assert (forallb (fun y => (N.lor 55296 y =? 55296 + y)%N &&
                            (N.lor 56320 y =? 56320 + y)%N)
                  (map N.of_nat (seq 0 1024)) = true) as Hall
      by (vm_compute; reflexivity).
  rewrite forallb_forall in Hall. specialize (Hall x).
  assert (In x (map N.of_nat (seq 0 1024))) as Hin.
  { apply in_map_iff. exists (N.to_nat x). split; [apply N2Nat.id |].
    apply in_seq. lia. }
  apply Hall in Hin. apply andb_true_iff in Hin as [H1 H2].
  apply N.eqb_eq in H1, H2. destruct Hb; subst; assumption.
Qed.

(** The two surrogates of a code point above 0xFFFF. *)
Lemma surrogates (c : N) :
  (65536 <= c < 1114112)%N ->
  (N.lor 55296 (N.land (N.shiftr (c - 65536) 10) 1023) =
   55296 + (c - 65536) / 1024 /\
   N.lor 56320 (N.land (c - 65536) 1023) = 56320 + (c - 65536) mod 1024)%N.
Proof.
  intros H.
  change 1023%N with (N.ones 10). rewrite !N.land_ones, N.shiftr_div_pow2.
  change (2 ^ 10)%N with 1024%N.
  rewrite (N.mod_small ((c - 65536) / 1024) 1024) by divlia.
  split; apply lor_below; auto; divlia.
Qed.

(** On the characters below 256 the encoder over code points is the
    encoder over characters. *)
Lemma escape_cp_narrow (a : ascii) :
  json_escape_cp (N_of_ascii a) = json_escape_char a.
Proof. destruct a as [[] [] [] [] [] [] [] []]; reflexivity. Qed.

Lemma escape_u_narrow (s : string) : json_escape_u (widen s) = json_escape s.
Proof.
  induction s as [|c s IH]; [reflexivity |].
  cbn [widen json_escape_u json_escape]. now rewrite escape_cp_narrow, IH.
Qed.

Lemma dumps_u_narrow (l : list string) :
  json_dumps_u (map widen l) = json_dumps l.
Proof.
  unfold json_dumps_u, json_dumps. rewrite map_map. do 3 f_equal.
  apply map_ext. intros s. unfold json_string_u, json_string.
  now rewrite escape_u_narrow.
Qed.

Lemma escape_cp_printable (c : N) :
  all_chars is_printable (json_escape_cp c) = true.
Proof.
  unfold json_escape_cp.
  repeat match goal with
         | |- context [(c =? ?k)%N] => destruct (c =? k)%N; [reflexivity |]
         end.
  destruct (N.leb_spec 32 c); cbn [andb];
    [destruct (N.leb_spec c 126); cbn [andb] |].
  - cbn [all_chars]. rewrite andb_true_r. unfold is_printable, nat_of_ascii.
    rewrite N_ascii_embedding by lia.
    apply andb_true_iff. split; apply Nat.leb_le; lia.
  - destruct (c <? 65536)%N; cbn zeta;
      rewrite !all_chars_append, !hex4_printable; reflexivity.
  - destruct (c <? 65536)%N; cbn zeta;
      rewrite !all_chars_append, !hex4_printable; reflexivity.
Qed.

Lemma escape_u_printable (s : ustring) :
  all_chars is_printable (json_escape_u s) = true.
Proof.
  induction s as [|c s IH]; [reflexivity |].
  cbn [json_escape_u]. now rewrite all_chars_append, escape_cp_printable, IH.
Qed.

Lemma join_printable (l : list string) :
  Forall (fun x => all_chars is_printable x = true) l ->
  all_chars is_printable (join ", " l) = true.
Proof.
  induction l as [|x l IH]; [reflexivity |].
  intros H. inversion H as [|? ? Hx Hl]; subst.
  destruct l as [|y l]; [exact Hx |].
  change (join ", " (x :: y :: l)) with (x ++ ", " ++ join ", " (y :: l)).
  rewrite !all_chars_append, Hx, (IH Hl). reflexivity.
Qed.

Lemma dumps_u_printable (l : list ustring) :
  all_chars is_printable (json_dumps_u l) = true.
Proof.
  unfold json_dumps_u. rewrite !all_chars_append.
  rewrite join_printable; [reflexivity |].
  apply Forall_forall. intros x Hx. apply in_map_iff in Hx as [r [<- _]].
  unfold json_string_u. now rewrite !all_chars_append, escape_u_printable.
Qed.

Lemma printable_weaken (s : string) :
  all_chars is_printable s = true ->
  all_chars is_printable_or_newline s = true.
Proof.
  induction s as [|c s IH]; [reflexivity |]. cbn [all_chars].
  rewrite !andb_true_iff. intros [Hc Hs]. split; [| now apply IH].
  unfold is_printable_or_newline. now rewrite Hc.
Qed.

(** X6. Whatever code points the rules hold, all of Unicode included,
    the script built from them at lines 162-174 is plain text: the rule
    array written by [json.dumps] is printable ASCII throughout, and
    every character of the script is a printable ASCII character or a
    line feed.  On a stylesheet of characters below 256, where the
    extraction is modelled, this is the script the modern injector
    sends. *)
Theorem modern_script_is_plain_ascii :
  (forall rules : list ustring,
      all_chars is_printable (json_dumps_u rules) = true /\
      all_chars is_printable_or_newline (modern_script rules) = true) /\
  (forall css log,
      exists rules ws,
        tone_rules_anki2_1_54 css log = (Ok rules, (log ++ ws)%list) /\
        append_tone_styling_anki2_1_54 css log =
        (Ok tt, (log ++ ws ++ [WebEval (modern_script (map widen rules))])%list)).
Proof.
  split.
  - intros rules. split; [apply dumps_u_printable |].
    unfold modern_script. rewrite !all_chars_append.
    rewrite (printable_weaken _ (dumps_u_printable _)). reflexivity.
  - intros css log.
    exists (flat_map modern_rules_of_line (split "010" css)),
      (flat_map modern_warnings_of_line (split "010" css)).
    split; [apply modern_rules_run |].
    rewrite modern_run. unfold modern_script. rewrite dumps_u_narrow.
    now rewrite !append_assoc.
Qed.

Lemma length_append (a b : string) :
  String.length (a ++ b) = String.length a + String.length b.
Proof. induction a; simpl; congruence. Qed.

Lemma append_cancel_r (a b t : string) : a ++ t = b ++ t -> a = b.
Proof.
  revert b. induction a as [|c a IH]; intros [|d b] H.
  - reflexivity.
  - apply (f_equal String.length) in H. cbn [append] in H.
    cbn [String.length] in H. rewrite length_append in H. lia.
  - apply (f_equal String.length) in H. cbn [append] in H.
    cbn [String.length] in H. rewrite length_append in H. lia.
  - cbn [append] in H. injection H as -> H. f_equal. now apply IH.
Qed.

(** The reader on an escape of four digits, and on two in a row. *)
Lemma read_u4 (h3 h2 h1 h0 : ascii) (v : N) (r2 : string) :
  hex4_val h3 h2 h1 h0 = Some v -> is_high v = false ->
  read_ustring ("\u" ++ String h3 (String h2 (String h1 (String h0 r2)))) =
  push_cp v (read_ustring r2).
Proof.
  intros Hv Hh. cbn [append read_ustring Ascii.eqb Bool.eqb].
  now rewrite Hv, Hh.
Qed.

Lemma read_u4_pair (h3 h2 h1 h0 l3 l2 l1 l0 : ascii) (v w : N) (r3 : string) :
  hex4_val h3 h2 h1 h0 = Some v -> is_high v = true ->
  hex4_val l3 l2 l1 l0 = Some w -> is_low w = true ->
  read_ustring
    ("\u" ++ String h3 (String h2 (String h1 (String h0
       ("\u" ++ String l3 (String l2 (String l1 (String l0 r3)))))))) =
  push_cp (65536 + (v - 55296) * 1024 + (w - 56320)) (read_ustring r3).
Proof.
  intros Hv Hh Hw Hl. cbn [append read_ustring Ascii.eqb Bool.eqb].
  rewrite Hv, Hh, Hw, Hl. reflexivity.
Qed.

Lemma read_escape_small (a : ascii) (t : string) :
  read_ustring (json_escape_cp (N_of_ascii a) ++ t) =
  push_cp (N_of_ascii a) (read_ustring t).
Proof. destruct a as [[] [] [] [] [] [] [] []]; reflexivity. Qed.

(** One escaped code point that is no surrogate is read back as the
    code point. *)
Lemma read_escape_cp (c : N) (t : string) :
  is_scalar c = true ->
  read_ustring (json_escape_cp c ++ t) = push_cp c (read_ustring t).
Proof.
  intros Hs. unfold is_scalar in Hs.
  destruct (N.ltb_spec c 256) as [Hsmall | Hbig].
  - rewrite <- (N_ascii_embedding c) by exact Hsmall. apply read_escape_small.
  - unfold json_escape_cp.
    repeat match goal with
           | |- context [(c =? ?k)%N] =>
               destruct (N.eqb_spec c k); [lia |]
           end.
    destruct (N.leb_spec 32 c); [| lia].
    destruct (N.leb_spec c 126); [lia |]. cbn [andb].
    destruct (N.ltb_spec c 65536) as [Hbmp | Hastral].
    + unfold hex4. rewrite append_assoc. cbn [append].
      apply (read_u4 _ _ _ _ c); [now apply hex4_round |].
      unfold is_high.
      destruct (N.ltb_spec c 55296), (N.leb_spec 57344 c),
        (N.leb_spec 55296 c), (N.ltb_spec c 56320);
        cbn [andb orb] in *; try reflexivity; try lia; discriminate Hs.
    + assert (c < 1114112)%N as Hmax.
      { destruct (N.ltb_spec c 55296); [lia |].
        destruct (N.leb_spec 57344 c), (N.ltb_spec c 1114112);
          cbn [andb orb] in Hs; try discriminate Hs; lia. }
      cbn zeta.
      destruct (surrogates c (conj Hastral Hmax)) as [-> ->].
      unfold hex4. rewrite !append_assoc. cbn [append].
      transitivity
        (push_cp (65536 + (55296 + (c - 65536) / 1024 - 55296) * 1024 +
                  (56320 + (c - 65536) mod 1024 - 56320))
                 (read_ustring t)); [| f_equal; divlia].
      apply (read_u4_pair _ _ _ _ _ _ _ _
                          (55296 + (c - 65536) / 1024)
                          (56320 + (c - 65536) mod 1024)).
      * apply hex4_round. divlia.
      * unfold is_high. apply andb_true_iff.
        split; [apply N.leb_le | apply N.ltb_lt]; divlia.
      * apply hex4_round. divlia.
      * unfold is_low. apply andb_true_iff.
        split; [apply N.leb_le | apply N.ltb_lt]; divlia.
Qed.

Lemma read_escape_u (s : ustring) (t : string) :
  Forall (fun c => is_scalar c = true) s ->
  read_ustring (json_escape_u s ++ DQ ++ t) = Some (s, t).
Proof.
  induction s as [|c s IH]; [reflexivity |].
  intros H. inversion H as [|? ? Hc Hs]; subst.
  cbn [json_escape_u]. rewrite append_assoc, (read_escape_cp c _ Hc), (IH Hs).
  reflexivity.
Qed.

Lemma array_cons_u (x : ustring) (r : list ustring) :
  join ", " (map json_string_u (x :: r)) ++ "]" =
  DQ ++ json_escape_u x ++ DQ ++ array_tail_u r.
Proof.
  destruct r as [|y r]; cbn [map array_tail_u].
  - cbn [join]. unfold json_string_u. now rewrite !append_assoc.
  - change (join ", " (json_string_u x :: json_string_u y :: map json_string_u r))
      with (json_string_u x ++ ", " ++ join ", " (map json_string_u (y :: r))).
    unfold json_string_u at 1. now rewrite !append_assoc.
Qed.

Lemma array_body_injective (l1 l2 : list ustring) :
  Forall (Forall (fun c => is_scalar c = true)) l1 ->
  Forall (Forall (fun c => is_scalar c = true)) l2 ->
  join ", " (map json_string_u l1) ++ "]" =
  join ", " (map json_string_u l2) ++ "]" ->
  l1 = l2.
Proof.
  revert l2. induction l1 as [|x r1 IH]; intros [|y r2] H1 H2 H.
  - reflexivity.
  - rewrite array_cons_u in H. discriminate H.
  - rewrite array_cons_u in H. discriminate H.
  - inversion H1 as [|? ? Hx Hr1]; subst.
    inversion H2 as [|? ? Hy Hr2]; subst.
    rewrite !array_cons_u in H. injection H as H.
    change (json_escape_u x ++ DQ ++ array_tail_u r1 =
            json_escape_u y ++ DQ ++ array_tail_u r2) in H.
    apply (f_equal read_ustring) in H.
    rewrite (read_escape_u x _ Hx), (read_escape_u y _ Hy) in H.
    injection H as -> H. f_equal.
    destruct r1 as [|x1 r1], r2 as [|y2 r2]; cbn [array_tail_u] in H;
      try reflexivity; try discriminate H.
    injection H as H. now apply IH.
Qed.

(** On strings without surrogates [json.dumps] loses nothing. *)
Lemma script_injective (l1 l2 : list ustring) :
  Forall (Forall (fun c => is_scalar c = true)) l1 ->
  Forall (Forall (fun c => is_scalar c = true)) l2 ->
  modern_script l1 = modern_script l2 -> l1 = l2.
Proof.
  intros H1 H2 H. unfold modern_script, json_dumps_u in H.
  apply append_cancel_r in H. cbn [append] in H. injection H as H.
  apply append_cancel_r in H. now apply array_body_injective.
Qed.

Lemma widen_scalar (s : string) :
  Forall (fun c => is_scalar c = true) (widen s).
Proof.
  induction s as [|a s IH]; [constructor |]. cbn [widen].
  constructor; [| exact IH].
  destruct a as [[] [] [] [] [] [] [] []]; reflexivity.
Qed.

Lemma widen_injective (s t : string) : widen s = widen t -> s = t.
Proof.
  revert t. induction s as [|a s IH]; intros [|b t] H;
    try reflexivity; try discriminate H.
  cbn [widen] in H. injection H as Hab H.
  apply (f_equal ascii_of_N) in Hab. rewrite !ascii_N_embedding in Hab.
  subst. f_equal. now apply IH.
Qed.

Lemma map_widen_injective (l1 l2 : list string) :
  map widen l1 = map widen l2 -> l1 = l2.
Proof.
  revert l2. induction l1 as [|x l1 IH]; intros [|y l2] H;
    try reflexivity; try discriminate H.
  cbn [map] in H. injection H as Hxy H.
  apply widen_injective in Hxy. subst. f_equal. now apply IH.
Qed.

Lemma web_eval_injective (a b : string) : [WebEval a] = [WebEval b] -> a = b.
Proof. intros H. now injection H. Qed.

Lemma log_injective (r r' : result unit) (l l' : list event) :
  (r, l) = (r', l') -> l = l'.
Proof. intros H. now injection H. Qed.

(** The script the modern injector sends is the script of the rules. *)
Lemma modern_sends (css : string) (rules : list string) (ws : list event)
      (js : string) :
  tone_rules_anki2_1_54 css [] = (Ok rules, ws) ->
  append_tone_styling_anki2_1_54 css [] = (Ok tt, (ws ++ [WebEval js])%list) ->
  js = modern_script (map widen rules).
Proof.
  intros H J.
  assert (append_tone_styling_anki2_1_54 css [] =
          (Ok tt, (ws ++ [WebEval (modern_script (map widen rules))])%list)) as E.
  { unfold append_tone_styling_anki2_1_54, bind, web_eval. rewrite H.
    unfold modern_script. now rewrite dumps_u_narrow. }
  rewrite E in J.
  apply log_injective, app_inv_head, web_eval_injective in J.
  now symmetry.
Qed.

(** X7. The script of lines 162-174 carries the rules without loss as
    long as no rule holds a surrogate code point: two such rule lists
    with the same script are equal, and so two stylesheets of
    characters below 256 for which the modern injector sends the same
    script have the same extracted rules.  With surrogates this fails:
    a code point above 0xFFFF and its pair of surrogates are written
    alike. *)
Theorem modern_script_determines_rules :
  (forall rules1 rules2 : list ustring,
      Forall (Forall (fun c => is_scalar c = true)) rules1 ->
      Forall (Forall (fun c => is_scalar c = true)) rules2 ->
      modern_script rules1 = modern_script rules2 ->
      rules1 = rules2) /\
  (forall css1 css2 rules1 rules2 ws1 ws2 js,
      tone_rules_anki2_1_54 css1 [] = (Ok rules1, ws1) ->
      tone_rules_anki2_1_54 css2 [] = (Ok rules2, ws2) ->
      append_tone_styling_anki2_1_54 css1 [] = (Ok tt, (ws1 ++ [WebEval js])%list) ->
      append_tone_styling_anki2_1_54 css2 [] = (Ok tt, (ws2 ++ [WebEval js])%list) ->
      rules1 = rules2) /\
  modern_script [[128512%N]] = modern_script [[55357%N; 56832%N]].
Proof.
  split; [exact script_injective |]. split; [| reflexivity].
  intros css1 css2 rules1 rules2 ws1 ws2 js H1 H2 J1 J2.
  pose proof (modern_sends _ _ _ _ H1 J1) as E1.
  pose proof (modern_sends _ _ _ _ H2 J2) as E2.
  apply map_widen_injective, script_injective.
  - apply Forall_forall. intros x Hx. apply in_map_iff in Hx as [s [<- _]].
    apply widen_scalar.
  - apply Forall_forall. intros x Hx. apply in_map_iff in Hx as [s [<- _]].
    apply widen_scalar.
  - now rewrite <- E1, <- E2.
Qed.

(** Two rule lists with Chinese text and a code point above 0xFFFF, and
    two stylesheets with the same rule and different other lines. *)
Lemma modern_script_determines_rules_witness :
  Forall (Forall (fun c => is_scalar c = true))
         [[46; 116; 111; 110; 101; 49; 32; 123; 20320; 22909; 128512; 125]%N; []] /\
  [[46; 116; 111; 110; 101; 49; 32; 123; 20320; 22909; 128512; 125]%N; []] =
  [[46; 116; 111; 110; 101; 49; 32; 123; 20320; 22909; 128512; 125]%N; []] /\
  tone_rules_anki2_1_54
    (join LF ["body { margin: 0 }"; ".tone1 {a:b}"; ".tone9"]) [] =
  (Ok [".tone1 {a:b}"], [ShowWarning WARN_ONE_LINER]) /\
  [".tone1 {a:b}"] = [".tone1 {a:b}"].
Proof.
  assert (Forall (Forall (fun c => is_scalar c = true))
                 [[46; 116; 111; 110; 101; 49; 32; 123; 20320; 22909; 128512; 125]%N; []])
    as Hscalar by (repeat constructor).
  split; [exact Hscalar |]. split; [| split; [reflexivity |]].
  - exact (proj1 modern_script_determines_rules _ _ Hscalar Hscalar eq_refl).
  - exact (proj1 (proj2 modern_script_determines_rules)
             ".tone1 {a:b}" (join LF ["body { margin: 0 }"; ".tone1 {a:b}"; ".tone9"])
             [".tone1 {a:b}"] [".tone1 {a:b}"]
             [] [ShowWarning WARN_ONE_LINER]
             ("var CSSRULES = " ++ json_dumps [".tone1 {a:b}"] ++ ";" ++ MODERN_JS_TAIL)
             eq_refl eq_refl eq_refl eq_refl).
Defined.

End Pipeline.

(** ** Properties of the editor hooks *)

Module Hooks.
Import PyStr PyMore Manager Spec StrFacts.

Lemma list_contains_In (x : string) (l : list string) :
  list_contains x l = true <-> In x l.
Proof.
  unfold list_contains. rewrite existsb_exists. split.
  - intros [y [Hy E]]. apply String.eqb_eq in E. now subst.
  - intros H. exists x. split; [exact H | apply String.eqb_refl].
Qed.

Lemma list_contains_false (x : string) (l : list string) :
  list_contains x l = false <-> ~ In x l.
Proof.
  rewrite <- list_contains_In. destruct (list_contains x l); split;
    congruence.
Qed.

Lemma list_contains_app (x : string) (l l' : list string) :
  list_contains x (l ++ l') = list_contains x l || list_contains x l'.
Proof. apply existsb_app. Qed.

Lemma str_int_injective (a b : Z) : str_int a = str_int b -> a = b.
Proof.
  unfold str_int. intros H. apply DecimalZ.to_int_inj.
  apply (f_equal NilEmpty.int_of_string) in H.
  rewrite !NilEmpty.isi in H. now injection H.
Qed.

(** [remove] succeeds on a list that holds the item, and takes exactly
    one occurrence away. *)
Lemma list_remove_some (x : string) (l : list string) :
  In x l ->
  exists l', list_remove x l = Some l' /\
             forall y, count_occ string_dec l y =
                       count_occ string_dec l' y + if string_dec x y then 1 else 0.
Proof.
  induction l as [|z l IH]; [intros [] |]. intros Hin. cbn [list_remove].
  destruct (String.eqb_spec z x) as [-> | Hne].
  - exists l. split; [reflexivity |]. intros y. cbn [count_occ].
    destruct (string_dec x y); lia.
  - destruct Hin as [-> | Hin]; [congruence |].
    destruct (IH Hin) as [l' [-> Hcount]]. exists (z :: l').
    split; [reflexivity |]. intros y. cbn [count_occ]. rewrite (Hcount y).
    destruct (string_dec z y); lia.
Qed.

Lemma list_remove_appended (x : string) (l : list string) :
  ~ In x l -> list_remove x (l ++ [x]) = Some l.
Proof.
  induction l as [|z l IH]; intros H; cbn [app list_remove].
  - now rewrite String.eqb_refl.
  - destruct (String.eqb_spec z x) as [-> | Hne]; [elim H; now left |].
    rewrite IH; [reflexivity |]. intros Hin. apply H. now right.
Qed.

Lemma count_occ_contains (x : string) (l : list string) :
  list_contains x l = true <-> count_occ string_dec l x > 0.
Proof. rewrite list_contains_In. apply count_occ_In. Qed.

(** [onToggle], run on any world. *)
Lemma onToggle_run (ed : editor) (w : world) :
  onToggle ed w =
  if list_contains (str_int (editor_mid ed)) (enabledModels w) then
    match list_remove (str_int (editor_mid ed)) (enabledModels w) with
    | Some l' =>
        (Done tt,
         mk_world l' (editors w)
                  (ui_log w ++ [Eval (editor_ref ed) DEACTIVATE; SaveConfig]))
    | None => (Raised ListRemoveError, w)
    end
  else
    (Done tt,
     mk_world (enabledModels w ++ [str_int (editor_mid ed)]) (editors w)
              (ui_log w ++ [Eval (editor_ref ed) ACTIVATE; SaveConfig])).
Proof.
  unfold onToggle, sbind, get_enabled.
  destruct (list_contains (str_int (editor_mid ed)) (enabledModels w));
    cbn [negb].
  - destruct (list_remove (str_int (editor_mid ed)) (enabledModels w));
      unfold set_enabled, emit, sraise; cbn; [| reflexivity].
    now rewrite <- app_assoc.
  - unfold set_enabled, emit; cbn. now rewrite <- app_assoc.
Qed.

(** What [onToggle] does on any world. *)
Lemma onToggle_effects (ed : editor) (w : world) :
  exists w' js,
    onToggle ed w = (Done tt, w') /\
    editors w' = editors w /\
    ui_log w' = (ui_log w ++ [Eval (editor_ref ed) js; SaveConfig])%list /\
    js = (if list_contains (str_int (editor_mid ed)) (enabledModels w)
          then DEACTIVATE else ACTIVATE) /\
    forall other,
      other <> editor_mid ed ->
      list_contains (str_int other) (enabledModels w') =
      list_contains (str_int other) (enabledModels w).
Proof.
  rewrite onToggle_run.
  destruct (list_contains (str_int (editor_mid ed)) (enabledModels w)) eqn:E.
  - apply list_contains_In in E.
    destruct (list_remove_some _ _ E) as [l' [-> Hcount]].
    eexists. exists DEACTIVATE. repeat split. intros other Hother.
    cbn [enabledModels].
    assert (str_int (editor_mid ed) <> str_int other) as Hne
        by (intros H; apply str_int_injective in H; congruence).
    specialize (Hcount (str_int other)).
    destruct (string_dec (str_int (editor_mid ed)) (str_int other));
      [congruence |].
    apply eq_true_iff_eq. rewrite !count_occ_contains. lia.
  - eexists. exists ACTIVATE. repeat split. intros other Hother.
    cbn [enabledModels]. rewrite list_contains_app.
    unfold list_contains at 2. cbn [existsb]. rewrite orb_false_r.
    destruct (String.eqb_spec (str_int other) (str_int (editor_mid ed))) as [H | _];
      [apply str_int_injective in H; congruence | now rewrite orb_false_r].
Qed.

(** X8. [onToggle] never raises (the removal is guarded by the
    membership test); it evaluates exactly one script, in the editor
    whose button was clicked, then saves the configuration once; it
    leaves the list of editors and the enabled state of every other
    note type as they were. *)
Theorem onToggle_never_raises (ed : editor) (w : world) :
  exists w' js,
    onToggle ed w = (Done tt, w') /\
    editors w' = editors w /\
    ui_log w' = (ui_log w ++ [Eval (editor_ref ed) js; SaveConfig])%list /\
    js = (if list_contains (str_int (editor_mid ed)) (enabledModels w)
          then DEACTIVATE else ACTIVATE) /\
    forall other,
      other <> editor_mid ed ->
      list_contains (str_int other) (enabledModels w') =
      list_contains (str_int other) (enabledModels w).
Proof. apply onToggle_effects. Qed.

Lemma updateButton_run (ed : editor) (w : world) :
  updateButton ed w =
  (Done tt,
   mk_world (enabledModels w) (editors w)
            (ui_log w ++
             [Eval (editor_ref ed)
                   (if list_contains (str_int (editor_mid ed)) (enabledModels w)
                    then ACTIVATE else DEACTIVATE)])).
Proof.
  unfold updateButton, sbind, get_enabled.
  now destruct (list_contains (str_int (editor_mid ed)) (enabledModels w)).
Qed.

(** What [onToggle] does on a list without duplicates. *)
Lemma onToggle_flip (ed : editor) (w : world) :
  NoDup (enabledModels w) ->
  exists w',
    onToggle ed w = (Done tt, w') /\
    list_contains (str_int (editor_mid ed)) (enabledModels w') =
    negb (list_contains (str_int (editor_mid ed)) (enabledModels w)) /\
    NoDup (enabledModels w') /\
    ui_log w' =
    (ui_log w ++
     [Eval (editor_ref ed)
           (if list_contains (str_int (editor_mid ed)) (enabledModels w')
            then ACTIVATE else DEACTIVATE);
      SaveConfig])%list.
Proof.
  intros Hnd. rewrite onToggle_run.
  pose proof (proj1 (NoDup_count_occ string_dec _) Hnd) as Hle.
  destruct (list_contains (str_int (editor_mid ed)) (enabledModels w)) eqn:E.
  - apply list_contains_In in E.
    destruct (list_remove_some _ _ E) as [l' [-> Hcount]].
    eexists. split; [reflexivity |]. cbn [enabledModels ui_log negb].
    assert (list_contains (str_int (editor_mid ed)) l' = false) as Hout.
    { apply list_contains_false. apply (count_occ_not_In string_dec).
      specialize (Hcount (str_int (editor_mid ed))).
      specialize (Hle (str_int (editor_mid ed))).
      destruct (string_dec (str_int (editor_mid ed)) (str_int (editor_mid ed)));
        [lia | congruence]. }
    rewrite Hout. repeat split.
    apply (NoDup_count_occ string_dec). intros y.
    specialize (Hcount y). specialize (Hle y). lia.
  - eexists. split; [reflexivity |]. cbn [enabledModels ui_log negb].
    assert (list_contains (str_int (editor_mid ed))
                          (enabledModels w ++ [str_int (editor_mid ed)]) = true)
      as Hin by (apply list_contains_In, in_or_app; right; now left).
    rewrite Hin. repeat split.
    apply (NoDup_count_occ string_dec). intros y. rewrite count_occ_app.
    specialize (Hle y). cbn [count_occ].
    destruct (string_dec (str_int (editor_mid ed)) y) as [<- | _]; [| lia].
    apply list_contains_false, (count_occ_not_In string_dec) in E. lia.
Qed.

(** X9. On a list of enabled note types without duplicates, [onToggle]
    flips the enabled state of the note type shown, keeps the list free
    of duplicates, and the script it evaluates shows the new state:
    activate when the note type is now enabled, deactivate when not. *)
Theorem onToggle_flips_membership (ed : editor) (w : world) :
  NoDup (enabledModels w) ->
  exists w',
    onToggle ed w = (Done tt, w') /\
    list_contains (str_int (editor_mid ed)) (enabledModels w') =
    negb (list_contains (str_int (editor_mid ed)) (enabledModels w)) /\
    NoDup (enabledModels w') /\
    ui_log w' =
    (ui_log w ++
     [Eval (editor_ref ed)
           (if list_contains (str_int (editor_mid ed)) (enabledModels w')
            then ACTIVATE else DEACTIVATE);
      SaveConfig])%list.
Proof. apply onToggle_flip. Qed.

(** Two enabled note types, the button of the second is clicked. *)
Lemma onToggle_flips_membership_witness :
  exists w',
    onToggle (mk_editor 7 15) (mk_world ["3"; "15"] [7] []) = (Done tt, w') /\
    list_contains "15" (enabledModels w') = false.
Proof.
  destruct (onToggle_flips_membership (mk_editor 7 15) (mk_world ["3"; "15"] [7] []))
    as [w' [Hrun [Hflip _]]].
  - repeat constructor; cbn; intuition discriminate.
  - exists w'. split; [exact Hrun | exact Hflip].
Defined.

(** X10. [remove] takes the first occurrence only: when the id of the
    note type stands more than once in the list of enabled note types,
    [onToggle] evaluates the deactivating script and yet leaves the
    note type enabled, so that the next [updateButton] activates the
    button again. *)
Theorem onToggle_duplicate_stays_enabled (ed : editor) (w : world) :
  count_occ string_dec (enabledModels w) (str_int (editor_mid ed)) >= 2 ->
  exists w',
    onToggle ed w = (Done tt, w') /\
    ui_log w' = (ui_log w ++ [Eval (editor_ref ed) DEACTIVATE; SaveConfig])%list /\
    list_contains (str_int (editor_mid ed)) (enabledModels w') = true /\
    ui_log (snd (updateButton ed w')) =
    (ui_log w' ++ [Eval (editor_ref ed) ACTIVATE])%list.
Proof.
  intros Hcount. rewrite onToggle_run.
  assert (In (str_int (editor_mid ed)) (enabledModels w)) as Hin
      by (apply (count_occ_In string_dec); lia).
  rewrite (proj2 (list_contains_In _ _) Hin).
  destruct (list_remove_some _ _ Hin) as [l' [-> Hc]].
  eexists. split; [reflexivity |]. cbn [enabledModels ui_log].
  assert (list_contains (str_int (editor_mid ed)) l' = true) as Hstill.
  { apply count_occ_contains. specialize (Hc (str_int (editor_mid ed))).
    destruct (string_dec (str_int (editor_mid ed)) (str_int (editor_mid ed)));
      [lia | congruence]. }
  repeat split; [exact Hstill |].
  rewrite updateButton_run. cbn [snd enabledModels ui_log]. now rewrite Hstill.
Qed.

(** The id 15 stands twice in the list. *)
Lemma onToggle_duplicate_witness :
  exists w',
    onToggle (mk_editor 7 15) (mk_world ["15"; "3"; "15"] [7] []) = (Done tt, w') /\
    list_contains "15" (enabledModels w') = true.
Proof.
  destruct (onToggle_duplicate_stays_enabled
              (mk_editor 7 15) (mk_world ["15"; "3"; "15"] [7] []))
    as [w' [Hrun [_ [Hstill _]]]].
  - cbn. lia.
  - exists w'. split; [exact Hrun | exact Hstill].
Defined.

(** X11. Clicking the button twice on a note type that was not enabled
    leaves the list of enabled note types exactly as it was. *)
Theorem double_toggle_restores (ed : editor) (w : world) :
  list_contains (str_int (editor_mid ed)) (enabledModels w) = false ->
  exists w1 w2,
    onToggle ed w = (Done tt, w1) /\
    onToggle ed w1 = (Done tt, w2) /\
    enabledModels w2 = enabledModels w /\
    ui_log w2 =
    (ui_log w ++ [Eval (editor_ref ed) ACTIVATE; SaveConfig;
                  Eval (editor_ref ed) DEACTIVATE; SaveConfig])%list.
Proof.
  intros Hout. rewrite onToggle_run, Hout.
  eexists. eexists. split; [reflexivity |].
  rewrite onToggle_run. cbn [enabledModels editors ui_log].
  rewrite list_contains_app. unfold list_contains at 2. cbn [existsb].
  rewrite String.eqb_refl, orb_true_r.
  rewrite list_remove_appended by now apply list_contains_false.
  split; [reflexivity |]. split; [reflexivity |].
  cbn [ui_log]. now rewrite <- app_assoc.
Qed.

(** The note type 15 is not enabled at first. *)
Lemma double_toggle_witness :
  exists w1 w2,
    onToggle (mk_editor 7 15) (mk_world ["3"] [7] []) = (Done tt, w1) /\
    onToggle (mk_editor 7 15) w1 = (Done tt, w2) /\
    enabledModels w2 = ["3"].
Proof.
  destruct (double_toggle_restores (mk_editor 7 15) (mk_world ["3"] [7] []) eq_refl)
    as [w1 [w2 [H1 [H2 [H3 _]]]]].
  exists w1, w2. repeat split; assumption.
Defined.

(** X12. On a list without duplicates the button state that [onToggle]
    sets is the one [updateButton] sets afterwards, in any editor that
    shows a note of the same note type. *)
Theorem toggle_then_update_agree (ed ed2 : editor) (w : world) :
  NoDup (enabledModels w) ->
  editor_mid ed2 = editor_mid ed ->
  exists w' js,
    onToggle ed w = (Done tt, w') /\
    ui_log w' = (ui_log w ++ [Eval (editor_ref ed) js; SaveConfig])%list /\
    updateButton ed2 w' =
    (Done tt,
     mk_world (enabledModels w') (editors w')
              (ui_log w' ++ [Eval (editor_ref ed2) js])).
Proof.
  intros Hnd Hmid.
  destruct (onToggle_flip ed w Hnd) as [w' [Hrun [_ [_ Hlog]]]].
  exists w'. eexists. split; [exact Hrun |]. split; [exact Hlog |].
  rewrite updateButton_run. now rewrite Hmid.
Qed.

(** Two editors on notes of the note type 15. *)
Lemma toggle_then_update_witness :
  exists w' js,
    onToggle (mk_editor 7 15) (mk_world ["3"] [7; 8] []) = (Done tt, w') /\
    ui_log w' = ([] ++ [Eval 7 js; SaveConfig])%list /\
    updateButton (mk_editor 8 15) w' =
    (Done tt,
     mk_world (enabledModels w') (editors w') (ui_log w' ++ [Eval 8 js])).
Proof.
  apply (toggle_then_update_agree (mk_editor 7 15) (mk_editor 8 15)
                                  (mk_world ["3"] [7; 8] [])).
  - repeat constructor. cbn. intuition.
  - reflexivity.
Defined.

Lemma sfor_emit {A : Type} (f : A -> ui_event) (xs : list A) (w : world) :
  sfor xs (fun x => emit (f x)) w =
  (Done tt, mk_world (enabledModels w) (editors w) (ui_log w ++ map f xs)).
Proof.
  revert w. induction xs as [|x xs IH]; intros w.
  - destruct w. cbn. now rewrite app_nil_r.
  - cbn [sfor map]. unfold sbind, emit at 1. rewrite IH.
    cbn [enabledModels editors ui_log]. now rewrite <- app_assoc.
Qed.

(** [onFocusLost], run on any world. *)
Lemma onFocusLost_run (uf : note -> string -> list string -> bool)
      (changed : bool) (n : note) (index : Z) (w : world) :
  onFocusLost uf changed n index w =
  if list_contains (str_int (note_mid n)) (enabledModels w) then
    match list_index (note_field_names n) index with
    | None => (Raised IndexError, w)
    | Some field =>
        (Done false,
         mk_world (enabledModels w) (editors w)
                  (ui_log w ++
                   UpdateFields (note_ref n) field (note_field_names n) ::
                   (if uf n field (note_field_names n)
                    then map (fun ed =>
                                LoadNote ed
                                         ((index + 1) mod
                                          Z.of_nat (List.length (note_field_names n))))
                             (editors w)
                    else [])))
    end
  else (Done false, w).
Proof.
  unfold onFocusLost, sbind, get_enabled.
  destruct (list_contains (str_int (note_mid n)) (enabledModels w));
    cbn [negb]; [| reflexivity].
  destruct (list_index (note_field_names n) index) as [field |];
    [| reflexivity].
  unfold emit at 1. destruct (uf n field (note_field_names n)).
  - unfold _refreshAllEditors, sbind, get_editors.
    cbn [enabledModels editors ui_log]. rewrite sfor_emit.
    cbn [enabledModels editors ui_log]. unfold sret.
    now rewrite <- app_assoc.
  - unfold sret. cbn [enabledModels editors ui_log]. reflexivity.
Qed.

Lemma list_index_in_range {A : Type} (l : list A) (i : Z) :
  (- Z.of_nat (List.length l) <= i < Z.of_nat (List.length l))%Z ->
  exists x,
    list_index l i = Some x /\
    nth_error l (Z.to_nat (position (Z.of_nat (List.length l)) i)) = Some x.
Proof.
  intros Hi. unfold list_index, position.
  destruct (Z.leb_spec 0 i).
  - destruct (Z.ltb_spec i (Z.of_nat (List.length l))); [| lia]. cbn [andb].
    destruct (nth_error l (Z.to_nat i)) as [x |] eqn:E; [now exists x |].
    apply nth_error_None in E. lia.
  - cbn [andb].
    destruct (Z.leb_spec (- Z.of_nat (List.length l)) i); [| lia].
    destruct (Z.ltb_spec i 0); [| lia]. cbn [andb].
    destruct (nth_error l (Z.to_nat (i + Z.of_nat (List.length l)))) as [x |] eqn:E;
      [now exists x |].
    apply nth_error_None in E. lia.
Qed.

Lemma list_index_out_of_range {A : Type} (l : list A) (i : Z) :
  ~ (- Z.of_nat (List.length l) <= i < Z.of_nat (List.length l))%Z ->
  list_index l i = None.
Proof.
  intros Hi. unfold list_index.
  destruct (Z.leb_spec 0 i), (Z.ltb_spec i (Z.of_nat (List.length l)));
    cbn [andb]; try lia;
    destruct (Z.leb_spec (- Z.of_nat (List.length l)) i), (Z.ltb_spec i 0);
    cbn [andb]; try lia; reflexivity.
Qed.

(** X13. When the note type of the note is not enabled, [onFocusLost]
    returns False and does nothing, whatever the index; when it is
    enabled, [onFocusLost] raises [IndexError] exactly when the index is
    outside the field names (below minus their number, or at or above
    it), and then [update_fields] was not called and nothing was
    changed. *)
Theorem onFocusLost_guard_and_index_error
        (uf : note -> string -> list string -> bool)
        (changed : bool) (n : note) (index : Z) (w : world) :
  (list_contains (str_int (note_mid n)) (enabledModels w) = false ->
   onFocusLost uf changed n index w = (Done false, w)) /\
  (list_contains (str_int (note_mid n)) (enabledModels w) = true ->
   (onFocusLost uf changed n index w = (Raised IndexError, w) <->
    ~ (- Z.of_nat (List.length (note_field_names n)) <= index <
       Z.of_nat (List.length (note_field_names n)))%Z) /\
   ((exists e w', onFocusLost uf changed n index w = (Raised e, w')) ->
    onFocusLost uf changed n index w = (Raised IndexError, w))).
Proof.
  rewrite onFocusLost_run. split; intros ->; [reflexivity |].
  destruct (list_index (note_field_names n) index) as [field |] eqn:E.
  - split; [split; [discriminate |] | intros [e [w' H]]; discriminate H].
    intros Hout. rewrite (list_index_out_of_range _ _ Hout) in E.
    discriminate E.
  - split; [split; [intros _ | reflexivity] | reflexivity].
    intros Hin. destruct (list_index_in_range _ _ Hin) as [x [Hx _]].
    congruence.
Qed.

(** A note with two fields, asked for the field at index 2. *)
Lemma onFocusLost_index_error_witness :
  onFocusLost (fun _ _ _ => true) false (mk_note 1 15 ["Hanzi"; "Pinyin"]) 2
              (mk_world ["15"] [7] []) =
  (Raised IndexError, mk_world ["15"] [7] []).
Proof.
  apply (proj2 (proj1 (proj2 (onFocusLost_guard_and_index_error
                                (fun _ _ _ => true) false
                                (mk_note 1 15 ["Hanzi"; "Pinyin"]) 2
                                (mk_world ["15"] [7] [])) eq_refl))).
  cbn. lia.
Defined.

(** X14. For an enabled note type and an index inside the field names,
    [onFocusLost] calls [update_fields] once on the field at that
    index and returns False; when [update_fields] returns true, every
    registered editor, in the order of registration, reloads the note
    with the focus on the field after that one, the first field
    following the last; when it returns false no editor is reloaded. *)
Theorem onFocusLost_refreshes_next_field
        (uf : note -> string -> list string -> bool)
        (changed : bool) (n : note) (index : Z) (w : world) :
  list_contains (str_int (note_mid n)) (enabledModels w) = true ->
  (- Z.of_nat (List.length (note_field_names n)) <= index <
   Z.of_nat (List.length (note_field_names n)))%Z ->
  exists field focusTo,
    nth_error (note_field_names n)
              (Z.to_nat (position (Z.of_nat (List.length (note_field_names n))) index)) =
    Some field /\
    focusTo =
    (let next := position (Z.of_nat (List.length (note_field_names n))) index + 1 in
     if next =? Z.of_nat (List.length (note_field_names n)) then 0 else next)%Z /\
    (0 <= focusTo < Z.of_nat (List.length (note_field_names n)))%Z /\
    onFocusLost uf changed n index w =
    (Done false,
     mk_world (enabledModels w) (editors w)
              (ui_log w ++
               UpdateFields (note_ref n) field (note_field_names n) ::
               (if uf n field (note_field_names n)
                then map (fun ed => LoadNote ed focusTo) (editors w)
                else []))).
Proof.
  intros Hen Hin. rewrite onFocusLost_run, Hen.
  destruct (list_index_in_range _ _ Hin) as [field [-> Hnth]].
  exists field,
    ((index + 1) mod Z.of_nat (List.length (note_field_names n)))%Z.
  split; [exact Hnth |].
  set (len := Z.of_nat (List.length (note_field_names n))) in *.
  assert ((index + 1) mod len =
          (if position len index + 1 =? len then 0 else position len index + 1))%Z
    as Hfocus.
  { unfold position. destruct (Z.leb_spec 0 index).
    - destruct (Z.eqb_spec (index + 1) len) as [<- | Hne].
      + apply Z.mod_same. lia.
      + apply Z.mod_small. lia.
    - replace (index + 1)%Z with (index + len + 1 + (-1) * len)%Z by lia.
      rewrite Z.mod_add by lia.
      destruct (Z.eqb_spec (index + len + 1) len) as [-> | Hne].
      + apply Z.mod_same. lia.
      + apply Z.mod_small. lia. }
  split; [exact Hfocus |].
  split; [apply Z.mod_pos_bound; lia | reflexivity].
Qed.

(** Two editors, three fields, the last field loses the focus. *)
Lemma onFocusLost_refreshes_witness :
  exists field focusTo,
    nth_error ["Hanzi"; "Pinyin"; "English"] 2 = Some field /\
    focusTo = 0%Z /\
    onFocusLost (fun _ _ _ => true) false
                (mk_note 1 15 ["Hanzi"; "Pinyin"; "English"]) 2
                (mk_world ["15"] [7; 8] []) =
    (Done false,
     mk_world ["15"] [7; 8]
              [UpdateFields 1 field ["Hanzi"; "Pinyin"; "English"];
               LoadNote 7 focusTo; LoadNote 8 focusTo]).
Proof.
  destruct (onFocusLost_refreshes_next_field
              (fun _ _ _ => true) false
              (mk_note 1 15 ["Hanzi"; "Pinyin"; "English"]) 2
              (mk_world ["15"] [7; 8] []) eq_refl)
    as [field [focusTo [Hnth [Hfocus [_ Hrun]]]]].
  - cbn. lia.
  - exists field, focusTo. split; [exact Hnth |]. split; [exact Hfocus |].
    exact Hrun.
Defined.

Lemma setupButton_run (night_mode : bool) (html : string)
      (buttons : list string) (ed : editor) (w : world) :
  setupButton night_mode html buttons ed w =
  (Done (buttons ++
         [replace CLASS_ATTR
                  (CLASS_ATTR ++ "btn " ++
                   (if night_mode then "btn-night" else "btn-day") ++
                   " svelte-9lxpor ") html])%list,
   mk_world (enabledModels w) (editors w ++ [editor_ref ed])
            (ui_log w ++ [AddButton (editor_ref ed)])).
Proof. reflexivity. Qed.

Lemma class_attr_chars :
  CLASS_ATTR =
  String "c" (String "l" (String "a" (String "s" (String "s" (String "="
    (String "034" EmptyString)))))).
Proof. reflexivity. Qed.

(** The attribute text does not overlap itself: it starts a text
    [pre ++ CLASS_ATTR ++ post] with a non-empty [pre] only if it
    starts [pre]. *)
Lemma class_attr_no_overlap (c : ascii) (pre post : string) :
  startswith CLASS_ATTR (String c pre ++ CLASS_ATTR ++ post) =
  startswith CLASS_ATTR (String c pre).
Proof.
  rewrite class_attr_chars.
  destruct pre as [|c1 [|c2 [|c3 [|c4 [|c5 [|c6 r]]]]]];
    cbn [append startswith];
    repeat match goal with
           | |- context [Ascii.eqb ?a ?b] =>
               is_var b; destruct (Ascii.eqb a b)
           end;
    reflexivity.
Qed.

Lemma replace_go_no_match (old new s : string) :
  contains old s = false -> replace_go old new 0 s = s.
Proof.
  induction s as [|c s IH]; [reflexivity |].
  cbn [contains]. rewrite orb_false_iff. intros [Hs Hc].
  cbn [replace_go]. rewrite Hs. now rewrite (IH Hc).
Qed.

Lemma replace_go_before_first (new pre post : string) :
  contains CLASS_ATTR pre = false ->
  replace_go CLASS_ATTR new 0 (pre ++ CLASS_ATTR ++ post) =
  pre ++ replace_go CLASS_ATTR new 0 (CLASS_ATTR ++ post).
Proof.
  induction pre as [|c pre IH]; [reflexivity |].
  intros Hc. pose proof Hc as Hc'. cbn [contains] in Hc'.
  apply orb_false_iff in Hc' as [Hs Hrest].
  change ((String c pre ++ CLASS_ATTR ++ post))
    with (String c (pre ++ CLASS_ATTR ++ post)) at 1.
  cbn [replace_go].
  change (String c (pre ++ CLASS_ATTR ++ post))
    with (String c pre ++ CLASS_ATTR ++ post).
  rewrite class_attr_no_overlap, Hs. cbn [append]. now rewrite (IH Hrest).
Qed.

Lemma replace_go_at_match (new post : string) :
  replace_go CLASS_ATTR new 0 (CLASS_ATTR ++ post) =
  new ++ replace_go CLASS_ATTR new 0 post.
Proof. reflexivity. Qed.

(** X15. [setupButton] registers the editor, adds the button to the
    editor once and appends one button to the list it was given.  Up
    to and including the first opening of a class attribute
    ([CLASS_ATTR]) of the button's HTML the text stays as it is, and
    right after it come the classes [btn], [btn-night] or [btn-day] by
    the theme, and [svelte-9lxpor]; what follows is treated the same
    way.  HTML without a class attribute is appended unchanged. *)
Theorem setupButton_adds_classes
        (night_mode : bool) (buttons : list string) (ed : editor) (w : world) :
  (forall pre post,
      contains CLASS_ATTR pre = false ->
      setupButton night_mode (pre ++ CLASS_ATTR ++ post) buttons ed w =
      (Done (buttons ++
             [(pre ++ CLASS_ATTR ++ "btn " ++
               (if night_mode then "btn-night" else "btn-day") ++
               " svelte-9lxpor " ++
               replace CLASS_ATTR
                       (CLASS_ATTR ++ "btn " ++
                        (if night_mode then "btn-night" else "btn-day") ++
                        " svelte-9lxpor ") post)%string])%list,
       mk_world (enabledModels w) (editors w ++ [editor_ref ed])
                (ui_log w ++ [AddButton (editor_ref ed)]))) /\
  (forall html,
      contains CLASS_ATTR html = false ->
      setupButton night_mode html buttons ed w =
      (Done (buttons ++ [html])%list,
       mk_world (enabledModels w) (editors w ++ [editor_ref ed])
                (ui_log w ++ [AddButton (editor_ref ed)]))).
Proof.
  split.
  - intros pre post Hpre. rewrite setupButton_run. do 3 f_equal.
    change (replace CLASS_ATTR ?new ?s) with (replace_go CLASS_ATTR new 0 s).
    rewrite replace_go_before_first by exact Hpre.
    rewrite replace_go_at_match. now rewrite !append_assoc.
  - intros html Hhtml. rewrite setupButton_run. do 3 f_equal.
    change (replace CLASS_ATTR ?new ?s) with (replace_go CLASS_ATTR new 0 s).
    now rewrite replace_go_no_match.
Qed.

(** The button as the host writes it, in the day theme. *)
Lemma setupButton_adds_classes_witness :
  setupButton false
              ("<button id=" ++ DQ ++ "chineseSupport" ++ DQ ++ " " ++
               CLASS_ATTR ++ "linkb" ++ DQ ++ ">")
              [] (mk_editor 7 15) (mk_world [] [] []) =
  (Done ["<button id=" ++ DQ ++ "chineseSupport" ++ DQ ++ " " ++
         CLASS_ATTR ++ "btn btn-day svelte-9lxpor linkb" ++ DQ ++ ">"],
   mk_world [] [7] [AddButton 7]).
Proof.
  pose proof (proj1 (setupButton_adds_classes false [] (mk_editor 7 15)
                                              (mk_world [] [] []))
                    ("<button id=" ++ DQ ++ "chineseSupport" ++ DQ ++ " ")
                    ("linkb" ++ DQ ++ ">") eq_refl) as H.
  exact H.
Defined.

(** What one call through a hook does to the shared state. *)
Lemma after_hook_effects (uf : note -> string -> list string -> bool)
      (w : world) (h : hook) :
  editors (after_hook uf w h) = (editors w ++ registered [h])%list /\
  (NoDup (enabledModels w) -> NoDup (enabledModels (after_hook uf w h))) /\
  exists evs, ui_log (after_hook uf w h) = (ui_log w ++ evs)%list.
Proof.
  destruct h as [night html buttons ed | ed | changed n index | ed];
    cbn [after_hook registered flat_map].
  - rewrite setupButton_run. cbn [snd editors enabledModels ui_log].
    rewrite app_nil_r. repeat split; auto. now eexists.
  - rewrite updateButton_run. cbn [snd editors enabledModels ui_log].
    rewrite app_nil_r. repeat split; auto. now eexists.
  - rewrite onFocusLost_run, app_nil_r.
    destruct (list_contains (str_int (note_mid n)) (enabledModels w)).
    + destruct (list_index (note_field_names n) index);
        cbn [snd editors enabledModels ui_log];
        (split; [reflexivity | split; [auto |]]).
      * now eexists.
      * exists []. now rewrite app_nil_r.
    + cbn [snd]. split; [reflexivity | split; [auto |]].
      exists []. now rewrite app_nil_r.
  - rewrite app_nil_r.
    destruct (onToggle_effects ed w) as [w' [js [Hrun [Hed [Hlog _]]]]].
    rewrite Hrun. cbn [snd]. split; [exact Hed |].
    split; [| eexists; exact Hlog].
    intros Hnd.
    destruct (onToggle_flip ed w Hnd) as [w'' [Hrun' [_ [Hnd' _]]]].
    congruence.
Qed.

(** X16. Whatever calls the host makes through the hooks, in whatever
    order, a list of enabled note types without duplicates stays
    without duplicates; so the state a button shows after a click is
    always the state the configuration holds. *)
Theorem hooks_keep_models_distinct
        (uf : note -> string -> list string -> bool) (hs : list hook) (w : world) :
  NoDup (enabledModels w) ->
  NoDup (enabledModels (after_hooks uf w hs)) /\
  forall ed,
    exists w',
      onToggle ed (after_hooks uf w hs) = (Done tt, w') /\
      ui_log (snd (updateButton ed w')) =
      (ui_log (after_hooks uf w hs) ++
       [Eval (editor_ref ed)
             (if list_contains (str_int (editor_mid ed)) (enabledModels w')
              then ACTIVATE else DEACTIVATE);
        SaveConfig;
        Eval (editor_ref ed)
             (if list_contains (str_int (editor_mid ed)) (enabledModels w')
              then ACTIVATE else DEACTIVATE)])%list.
Proof.
  intros Hnd.
  assert (NoDup (enabledModels (after_hooks uf w hs))) as Hafter.
  { unfold after_hooks. revert w Hnd.
    induction hs as [|h hs IH]; intros w Hnd; [exact Hnd |].
    cbn [fold_left]. apply IH.
    now apply (after_hook_effects uf w h). }
  split; [exact Hafter |]. intros ed.
  destruct (onToggle_flip ed _ Hafter) as [w' [Hrun [_ [_ Hlog]]]].
  exists w'. split; [exact Hrun |].
  rewrite updateButton_run. cbn [snd ui_log]. rewrite Hlog.
  now rewrite <- app_assoc.
Qed.

(** Two clicks and a reload, from one enabled note type. *)
Lemma hooks_keep_models_distinct_witness :
  NoDup (enabledModels
           (after_hooks (fun _ _ _ => true) (mk_world ["3"] [] [])
                        [ClickedButton (mk_editor 7 15);
                         LoadedNote (mk_editor 7 15);
                         ClickedButton (mk_editor 8 3)])).
Proof.
  apply (hooks_keep_models_distinct
           (fun _ _ _ => true)
           [ClickedButton (mk_editor 7 15); LoadedNote (mk_editor 7 15);
            ClickedButton (mk_editor 8 3)]
           (mk_world ["3"] [] [])).
  repeat constructor. cbn. intuition.
Defined.

(** X17. The list of editors is never pruned: after any calls through
    the hooks it is the list before followed by one entry for every
    call of [setupButton], in order, an editor registered twice standing
    twice; and the events before are still there, in order, followed by
    the new ones. *)
Theorem editors_only_grow
        (uf : note -> string -> list string -> bool) (hs : list hook) (w : world) :
  editors (after_hooks uf w hs) = (editors w ++ registered hs)%list /\
  exists evs, ui_log (after_hooks uf w hs) = (ui_log w ++ evs)%list.
Proof.
  unfold after_hooks. revert w.
  induction hs as [|h hs IH]; intros w.
  - cbn. rewrite app_nil_r. split; [reflexivity |].
    exists []. now rewrite app_nil_r.
  - cbn [fold_left].
    destruct (after_hook_effects uf w h) as [Hed [_ [evs Hlog]]].
    destruct (IH (after_hook uf w h)) as [Hed' [evs' Hlog']].
    split.
    + rewrite Hed', Hed. unfold registered. cbn [flat_map].
      now rewrite app_nil_r, app_assoc.
    + exists (evs ++ evs')%list. now rewrite Hlog', Hlog, app_assoc.
Qed.

Lemma contains_after (p h s : string) :
  contains p s = true -> contains p (h ++ s) = true.
Proof.
  rewrite !contains_spec. intros [a [b ->]].
  exists (h ++ a), b. now rewrite append_assoc.
Qed.

(** X18. In the page of an editor [webviewDidInit] keeps the head it
    finds and adds the definitions of the two functions that the
    scripts of [onToggle] and [updateButton] call, and these are the
    only scripts the two evaluate; in any other page the head is left
    as it is. *)
Theorem button_scripts_are_defined (head : string) :
  is_prefix head (webviewDidInit head EditorContext) /\
  contains ("function " ++ ACTIVATE ++ " {") (webviewDidInit head EditorContext) = true /\
  contains ("function " ++ DEACTIVATE ++ " {") (webviewDidInit head EditorContext) = true /\
  webviewDidInit head OtherContext = head /\
  (forall ed w,
      exists w' js,
        onToggle ed w = (Done tt, w') /\
        ui_log w' = (ui_log w ++ [Eval (editor_ref ed) js; SaveConfig])%list /\
        (js = ACTIVATE \/ js = DEACTIVATE)) /\
  (forall ed w,
      exists w' js,
        updateButton ed w = (Done tt, w') /\
        ui_log w' = (ui_log w ++ [Eval (editor_ref ed) js])%list /\
        (js = ACTIVATE \/ js = DEACTIVATE)).
Proof.
  split; [now exists BUTTON_SCRIPT |].
  split; [now apply contains_after |].
  split; [now apply contains_after |].
  split; [reflexivity |]. split; intros ed w.
  - destruct (onToggle_effects ed w) as [w' [js [Hrun [_ [Hlog [Hjs _]]]]]].
    exists w', js. split; [exact Hrun |]. split; [exact Hlog |].
    rewrite Hjs. destruct (list_contains _ _); auto.
  - rewrite updateButton_run. eexists. eexists.
    split; [reflexivity |]. split; [reflexivity |].
    destruct (list_contains _ _); auto.
Qed.

End Hooks.
